(** * Chinese-holiday: a shallow embedding of [chinese_holiday.py]

    The development follows the Python module function by function:
    text and regular expressions first (the notice parser), then the
    calendar arithmetic of [datetime], then the JSON cache and the
    date classifier. *)

From Stdlib Require Import String Ascii ZArith NArith Lia Bool List.
Import ListNotations.
Local Open Scope Z_scope.

(** ** Text

    A Python [str] is a sequence of Unicode code points.  String literals of
    this file are UTF-8, [u] decodes them into code points so that the
    patterns and the inputs read as they do in the source. *)

Definition char := N.
Definition str := list char.

Fixpoint utf8_decode (bs : list N) : str :=
  match bs with
  | [] => []
  | b0 :: t =>
    if (b0 <? 0x80)%N then b0 :: utf8_decode t
    else if (b0 <? 0xE0)%N then
      match t with
      | b1 :: t' =>
        N.lor (N.shiftl (N.land b0 0x1F) 6) (N.land b1 0x3F) :: utf8_decode t'
      | _ => []
      end
    else if (b0 <? 0xF0)%N then
      match t with
      | b1 :: b2 :: t' =>
        N.lor (N.shiftl (N.land b0 0x0F) 12)
              (N.lor (N.shiftl (N.land b1 0x3F) 6) (N.land b2 0x3F))
          :: utf8_decode t'
      | _ => []
      end
    else
      match t with
      | b1 :: b2 :: b3 :: t' =>
        N.lor (N.shiftl (N.land b0 0x07) 18)
              (N.lor (N.shiftl (N.land b1 0x3F) 12)
                     (N.lor (N.shiftl (N.land b2 0x3F) 6) (N.land b3 0x3F)))
          :: utf8_decode t'
      | _ => []
      end
  end.

Definition u (s : string) : str :=
  utf8_decode (map N_of_ascii (list_ascii_of_string s)).

(** The one character of a literal. *)
Definition ch (s : string) : char := hd 0%N (u s).

Definition char_eqb (a b : char) : bool := N.eqb a b.

Fixpoint str_eqb (a b : str) : bool :=
  match a, b with
  | [], [] => true
  | x :: a', y :: b' => char_eqb x y && str_eqb a' b'
  | _, _ => false
  end.

(** [c in s] for a one-character [c]. *)
Definition contains (c : char) (s : str) : bool := existsb (char_eqb c) s.

(** [s.index(c)] for a one-character [c]: [None] stands for the
    [ValueError] Python raises when [c] does not occur. *)
Fixpoint index (c : char) (s : str) : option nat :=
  match s with
  | [] => None
  | x :: t => if char_eqb c x then Some O
              else match index c t with Some i => Some (S i) | None => None end
  end.

(** [str.isspace] on one code point, the separator set of [str.split()]. *)
Definition is_space (c : char) : bool :=
  ((9 <=? c) && (c <=? 13) || (28 <=? c) && (c <=? 32)
   || (c =? 0x85) || (c =? 0xA0) || (c =? 0x1680)
   || (0x2000 <=? c) && (c <=? 0x200A)
   || (c =? 0x2028) || (c =? 0x2029) || (c =? 0x202F) || (c =? 0x205F)
   || (c =? 0x3000))%N.

(** [text.split()]: maximal runs of non-space characters. *)
Fixpoint split_ws (cur : str) (s : str) : list str :=
  match s with
  | [] => match cur with [] => [] | _ => [rev cur] end
  | c :: t =>
    if is_space c
    then match cur with [] => split_ws [] t | _ => rev cur :: split_ws [] t end
    else split_ws (c :: cur) t
  end.

Definition split (text : str) : list str := split_ws [] text.

(** ** Exceptions

    A call either returns or raises; [Err] carries the exception class. *)

Inductive exn :=
| ValueError | TypeError | AssertionError | OverflowError
| UnboundLocalError | FileNotFoundError | RecursionError
| CannotParse            (* Exception("Can not parse holiday info from ...") *)
| WrongMessage           (* Exception("Wrong message: ...") *)
| External (code : nat). (* raised by the network or the HTML library *)

Inductive result (A : Type) :=
| Ok (a : A)
| Err (e : exn).
Arguments Ok {A} a.
Arguments Err {A} e.

Definition bind {A B} (m : result A) (f : A -> result B) : result B :=
  match m with Ok a => f a | Err e => Err e end.

Declare Scope py_scope.
Delimit Scope py_scope with py.
Notation "x <- m ;; k" := (bind m (fun x => k))
  (at level 61, m at next level, right associativity) : py_scope.
Notation "' pat <- m ;; k" := (bind m (fun x => match x with pat => k end))
  (at level 61, pat pattern, m at next level, right associativity) : py_scope.
Local Open Scope py_scope.

(** ** Regular expressions

    The patterns of the module use literals, character classes, sequence,
    alternation, greedy [?], [+] and [{m,n}], capturing groups and one
    look-behind.  [rmatch] is the backtracking matcher of Python's [re]:
    alternatives are tried left to right, greedy operators try the longer
    match first, and the first complete match wins. *)

Inductive regex :=
| REps
| RChar (c : char)
| RSet (p : char -> bool)
| RSeq (r1 r2 : regex)
| RAlt (r1 r2 : regex)
| ROpt (r : regex)
| RRep (lo hi : nat) (r : regex)
| RPlus (r : regex)
| RGroup (i : nat) (r : regex)
| RLookbehind (c : char).

(** A position in the subject: the characters before it (nearest first) and
    the characters from it on. *)
Record cursor := Cursor { before : str; after : str }.

Definition captures := list (nat * str).

(** The text between two positions of one subject. *)
Definition between (c c' : cursor) : str :=
  rev (firstn (length (before c') - length (before c)) (before c')).

Definition orelse {A} (a b : option A) : option A :=
  match a with Some x => Some x | None => b end.

Fixpoint rmatch {A} (r : regex) (c : cursor) (g : captures)
    (k : cursor -> captures -> option A) : option A :=
  match r with
  | REps => k c g
  | RChar x =>
    match after c with
    | y :: t => if char_eqb x y then k (Cursor (y :: before c) t) g else None
    | [] => None
    end
  | RSet p =>
    match after c with
    | y :: t => if p y then k (Cursor (y :: before c) t) g else None
    | [] => None
    end
  | RSeq r1 r2 => rmatch r1 c g (fun c' g' => rmatch r2 c' g' k)
  | RAlt r1 r2 => orelse (rmatch r1 c g k) (rmatch r2 c g k)
  | ROpt r1 => orelse (rmatch r1 c g k) (k c g)
  | RRep lo hi r1 =>
    (fix rep (lo hi : nat) (c : cursor) (g : captures) : option A :=
       match hi with
       | O => match lo with O => k c g | S _ => None end
       | S hi' =>
         match lo with
         | S lo' => rmatch r1 c g (fun c' g' => rep lo' hi' c' g')
         | O => orelse (rmatch r1 c g (fun c' g' => rep O hi' c' g')) (k c g)
         end
       end) lo hi c g
  | RPlus r1 =>
    (* every iteration of the bodies used here consumes a character, so the
       length of the rest of the subject bounds the number of iterations *)
    (fix loop (n : nat) (c : cursor) (g : captures) : option A :=
       rmatch r1 c g (fun c' g' =>
         match n with
         | O => k c' g'
         | S n' => orelse (loop n' c' g') (k c' g')
         end)) (length (after c)) c g
  | RGroup i r1 => rmatch r1 c g (fun c' g' => k c' ((i, between c c') :: g'))
  | RLookbehind x =>
    match before c with
    | y :: _ => if char_eqb x y then k c g else None
    | [] => None
    end
  end.

Declare Scope regex_scope.
Delimit Scope regex_scope with regex.
Bind Scope regex_scope with regex.
Infix "+++" := RSeq (at level 60, right associativity) : regex_scope.

(** A literal string. *)
Definition RStr (s : str) : regex := fold_right (fun c r => RSeq (RChar c) r) REps s.

(** The text of group [i] ([None] when the group did not take part). *)
Fixpoint group (i : nat) (g : captures) : option str :=
  match g with
  | [] => None
  | (j, s) :: g' => if Nat.eqb i j then Some s else group i g'
  end.

(** The number of capturing groups of a pattern. *)
Fixpoint ngroups (r : regex) : nat :=
  match r with
  | REps | RChar _ | RSet _ | RLookbehind _ => O
  | RSeq r1 r2 | RAlt r1 r2 => Nat.max (ngroups r1) (ngroups r2)
  | ROpt r1 | RRep _ _ r1 | RPlus r1 => ngroups r1
  | RGroup i r1 => Nat.max i (ngroups r1)
  end.

(** The characters a pattern can consume. *)
Fixpoint alphabet (r : regex) (x : char) : bool :=
  match r with
  | REps | RLookbehind _ => false
  | RChar c => char_eqb c x
  | RSet p => p x
  | RSeq r1 r2 | RAlt r1 r2 => alphabet r1 x || alphabet r2 x
  | ROpt r1 | RRep _ _ r1 | RPlus r1 | RGroup _ r1 => alphabet r1 x
  end.

(** A match object: [m.group(0)], the captures, and the number of groups of
    the pattern it comes from. *)
Record mobj := MObj { m_text : str; m_caps : captures; m_ngroups : nat }.

(** [m.group(i)]. *)
Definition m_group (i : nat) (m : mobj) : option str := group i (m_caps m).

(** [m.groups()]: one entry per group of the pattern, [None] for a group
    that did not take part. *)
Definition groups (m : mobj) : list (option str) :=
  map (fun i => m_group i m) (seq 1 (m_ngroups m)).

(** [pattern.match] at a cursor: the end of the match and the match object. *)
Definition match_at (r : regex) (c : cursor) : option (cursor * mobj) :=
  rmatch r c [] (fun c' g => Some (c', MObj (between c c') g (ngroups r))).

(** [re.match(r, s)]. *)
Definition re_match (r : regex) (s : str) : option mobj :=
  match match_at r (Cursor [] s) with
  | Some (_, m) => Some m
  | None => None
  end.

(** [re.finditer]: leftmost matches, left to right, not overlapping.  [skip]
    counts the characters of the last match still to be stepped over.  (An
    empty match is followed by a search one character on; none of the
    patterns of this module matches the empty string.) *)
Fixpoint finditer_from (r : regex) (pre : str) (rest : str) (skip : nat)
  : list mobj :=
  match skip with
  | S n =>
    match rest with
    | [] => []
    | x :: t => finditer_from r (x :: pre) t n
    end
  | O =>
    match match_at r (Cursor pre rest) with
    | Some (_, m) =>
      m :: match rest with
           | [] => []
           | x :: t => finditer_from r (x :: pre) t (Nat.pred (length (m_text m)))
           end
    | None =>
      match rest with
      | [] => []
      | x :: t => finditer_from r (x :: pre) t O
      end
    end
  end.

Definition finditer (r : regex) (s : str) : list mobj := finditer_from r [] s O.

(** [re.findall] for a pattern without groups: the matched texts. *)
Definition findall (r : regex) (s : str) : list str :=
  map m_text (finditer r s).

(** [pattern.sub("", s)]: the subject without the matches. *)
Fixpoint sub_empty_from (r : regex) (pre : str) (rest : str) (skip : nat) : str :=
  match skip with
  | S n =>
    match rest with
    | [] => []
    | x :: t => sub_empty_from r (x :: pre) t n
    end
  | O =>
    match match_at r (Cursor pre rest) with
    | Some (_, m) =>
      match rest with
      | [] => []
      | x :: t =>
        match length (m_text m) with
        | O => x :: sub_empty_from r (x :: pre) t O
        | S n => sub_empty_from r (x :: pre) t n
        end
      end
    | None =>
      match rest with
      | [] => []
      | x :: t => x :: sub_empty_from r (x :: pre) t O
      end
    end
  end.

Definition sub_empty (r : regex) (s : str) : str := sub_empty_from r [] s O.

(** Character classes.  On a [str] pattern [\d] is every decimal digit of
    Unicode (the category Nd), and these are the digits [int] reads.  They
    come in runs from zero to nine (five such in a row for the mathematical
    digits): [decimal_runs] has the first code point and the length of every
    run, as of Unicode 14.0, the table of Python 3.11 (a later Unicode adds
    runs).  The ranges of a pattern, as [[1-9]], are ASCII.  [.] is any
    character but the line feed. *)
Definition decimal_runs : list (N * N) :=
  [(0x30, 10); (0x660, 10); (0x6F0, 10); (0x7C0, 10); (0x966, 10);
   (0x9E6, 10); (0xA66, 10); (0xAE6, 10); (0xB66, 10); (0xBE6, 10);
   (0xC66, 10); (0xCE6, 10); (0xD66, 10); (0xDE6, 10); (0xE50, 10);
   (0xED0, 10); (0xF20, 10); (0x1040, 10); (0x1090, 10); (0x17E0, 10);
   (0x1810, 10); (0x1946, 10); (0x19D0, 10); (0x1A80, 10); (0x1A90, 10);
   (0x1B50, 10); (0x1BB0, 10); (0x1C40, 10); (0x1C50, 10); (0xA620, 10);
   (0xA8D0, 10); (0xA900, 10); (0xA9D0, 10); (0xA9F0, 10); (0xAA50, 10);
   (0xABF0, 10); (0xFF10, 10); (0x104A0, 10); (0x10D30, 10); (0x11066, 10);
   (0x110F0, 10); (0x11136, 10); (0x111D0, 10); (0x112F0, 10); (0x11450, 10);
   (0x114D0, 10); (0x11650, 10); (0x116C0, 10); (0x11730, 10); (0x118E0, 10);
   (0x11950, 10); (0x11C50, 10); (0x11D50, 10); (0x11DA0, 10); (0x16A60, 10);
   (0x16AC0, 10); (0x16B50, 10); (0x1D7CE, 50); (0x1E140, 10); (0x1E2F0, 10);
   (0x1E950, 10); (0x1FBF0, 10)]%N.

Definition decimal_run (c : char) : option (N * N) :=
  find (fun r => (fst r <=? c) && (c <? fst r + snd r))%N decimal_runs.

Definition is_digit (c : char) : bool :=
  match decimal_run c with Some _ => true | None => false end.
Definition any_char (c : char) : bool := negb (c =? 10)%N.
Definition one_of (s : str) (c : char) : bool := contains c s.
Definition none_of (s : str) (c : char) : bool := negb (contains c s).
Definition in_range (lo hi : string) (c : char) : bool :=
  match u lo, u hi with
  | [a], [b] => ((a <=? c) && (c <=? b))%N
  | _, _ => false
  end.

Definition digit : regex := RSet is_digit.
Definition digits (lo hi : nat) : regex := RRep lo hi digit.

(** The characters the patterns name. *)
Definition c_year : char := Eval cbv in ch "年".
Definition c_month : char := Eval cbv in ch "月".
Definition c_day : char := Eval cbv in ch "日".
Definition c_comma : char := Eval cbv in ch "、".

(** ** The patterns of the module *)

(** [P_LINE_FIX = re.compile(r"[(（][^)）]+.")] *)
Definition P_LINE_FIX : regex :=
  (RSet (one_of (u "(（")) +++ RPlus (RSet (none_of (u ")）"))) +++ RSet any_char)%regex.

(** [r"国务院办公厅关于(\d{4})年"] *)
Definition reg_title : regex :=
  (RStr (u "国务院办公厅关于") +++ RGroup 1 (digits 4 4) +++ RChar c_year)%regex.

(** [reg_holiday_occur], written in verbose mode in the source:
    [((?:\d{4}年)?\d{1,2}月\d{1,2}日)(?:至((?:\d{4}年)?(?:\d{1,2}月)?\d{1,2}日))?放假] *)
Definition reg_holiday_occur : regex :=
  (RGroup 1 (ROpt (digits 4 4 +++ RChar c_year)
             +++ digits 1 2 +++ RChar c_month +++ digits 1 2 +++ RChar c_day)
   +++ ROpt (RStr (u "至")
             +++ RGroup 2 (ROpt (digits 4 4 +++ RChar c_year)
                           +++ ROpt (digits 1 2 +++ RChar c_month)
                           +++ digits 1 2 +++ RChar c_day))
   +++ RStr (u "放假"))%regex.

(** [r'((?:(?:(?:\d{4}年)?\d{1,2}月)?\d{1,2}日、?)+)上班。']: the group
    repeats [workday_run_body], one day mention and the "、" that may
    follow it. *)
Definition workday_run_body : regex :=
  (ROpt (ROpt (digits 4 4 +++ RChar c_year) +++ digits 1 2 +++ RChar c_month)
   +++ digits 1 2 +++ RChar c_day +++ ROpt (RChar c_comma))%regex.

Definition reg_workday_occur : regex :=
  (RGroup 1 (RPlus workday_run_body) +++ RStr (u "上班。"))%regex.

(** [r"(?:(?:\d{4}年)?\d{1,2}月|(?<=、))\d{1,2}日"] *)
Definition reg_workday : regex :=
  (RAlt (ROpt (digits 4 4 +++ RChar c_year) +++ digits 1 2 +++ RChar c_month)
         (RLookbehind c_comma)
   +++ digits 1 2 +++ RChar c_day)%regex.

Definition fix_line (line : str) : str := sub_empty P_LINE_FIX line.

(** ** Calendar: [datetime]

    A naive [datetime] is its calendar date and the time of day, here as the
    microseconds since midnight; [strptime] with a date-only format yields
    midnight. *)

Record datetime := DateTime { dt_year : Z; dt_month : Z; dt_day : Z; dt_time : Z }.

Definition is_leap (y : Z) : bool :=
  (y mod 4 =? 0) && (negb (y mod 100 =? 0) || (y mod 400 =? 0)).

Definition days_in_month (y m : Z) : Z :=
  if (m =? 2) && is_leap y then 29
  else nth (Z.to_nat m) [-1; 31; 28; 31; 30; 31; 30; 31; 31; 30; 31; 30; 31] 0.

Definition days_before_year (y : Z) : Z :=
  let y := y - 1 in y * 365 + y / 4 - y / 100 + y / 400.

Definition days_before_month (y m : Z) : Z :=
  nth (Z.to_nat m) [-1; 0; 31; 59; 90; 120; 151; 181; 212; 243; 273; 304; 334] 0
  + (if (2 <? m) && is_leap y then 1 else 0).

Definition ymd2ord (y m d : Z) : Z :=
  days_before_year y + days_before_month y m + d.

Definition toordinal (t : datetime) : Z :=
  ymd2ord (dt_year t) (dt_month t) (dt_day t).

(** [t.weekday()]: Monday is 0, Sunday is 6. *)
Definition weekday (t : datetime) : Z := (toordinal t + 6) mod 7.

(** The inverse of [ymd2ord], as [datetime] computes it. *)
Definition ord2ymd (n : Z) : Z * Z * Z :=
  let n := n - 1 in
  let n400 := n / 146097 in
  let n := n mod 146097 in
  let year := n400 * 400 + 1 in
  let n100 := n / 36524 in
  let n := n mod 36524 in
  let n4 := n / 1461 in
  let n := n mod 1461 in
  let n1 := n / 365 in
  let n := n mod 365 in
  let year := year + n100 * 100 + n4 * 4 + n1 in
  if (n1 =? 4) || (n100 =? 4) then (year - 1, 12, 31)
  else
    let leapyear := (n1 =? 3) && (negb (n4 =? 24) || (n100 =? 3)) in
    let month := Z.shiftr (n + 50) 5 in
    let preceding :=
      nth (Z.to_nat month) [-1; 0; 31; 59; 90; 120; 151; 181; 212; 243; 273; 304; 334] 0
      + (if (2 <? month) && leapyear then 1 else 0) in
    if n <? preceding then
      let month := month - 1 in
      let preceding :=
        preceding
        - (nth (Z.to_nat month) [-1; 31; 28; 31; 30; 31; 30; 31; 31; 30; 31; 30; 31] 0
           + (if (month =? 2) && leapyear then 1 else 0)) in
      (year, month, n - preceding + 1)
    else (year, month, n - preceding + 1).

(** [datetime(y, m, d)]: [ValueError] outside the calendar. *)
Definition mk_datetime (y m d : Z) : result datetime :=
  if (1 <=? y) && (y <=? 9999) && (1 <=? m) && (m <=? 12)
     && (1 <=? d) && (d <=? days_in_month y m)
  then Ok (DateTime y m d 0)
  else Err ValueError.

(** [t + timedelta(days=n)]: [OverflowError] outside years 1 to 9999. *)
Definition add_days (t : datetime) (n : Z) : result datetime :=
  let o := toordinal t + n in
  if (1 <=? o) && (o <=? 3652059)
  then let '(y, m, d) := ord2ymd o in Ok (DateTime y m d (dt_time t))
  else Err OverflowError.

(** [a <= b] on naive datetimes: the fields compared from the year down. *)
Definition dt_compare (a b : datetime) : comparison :=
  match dt_year a ?= dt_year b with
  | Eq => match dt_month a ?= dt_month b with
          | Eq => match dt_day a ?= dt_day b with
                  | Eq => dt_time a ?= dt_time b
                  | c => c
                  end
          | c => c
          end
  | c => c
  end.

Definition dt_leb (a b : datetime) : bool :=
  match dt_compare a b with Gt => false | _ => true end.

(** The value of a decimal digit: its place in its run of ten. *)
Definition digit_val (c : char) : Z :=
  match decimal_run c with
  | Some r => Z.of_N ((c - fst r) mod 10)
  | None => 0
  end.

(** [int(s)] for a run of digits. *)
Definition int_of_digits (s : str) : Z :=
  fold_left (fun acc c => acc * 10 + digit_val c) s 0.

(** [int(s)] on the text of a group of digits: [ValueError] unless [s] is a
    non-empty run of digits. *)
Definition py_int (s : str) : result Z :=
  match s with
  | [] => Err ValueError
  | _ => if forallb is_digit s then Ok (int_of_digits s) else Err ValueError
  end.

Definition digit_char (d : Z) : char := Z.to_N (d mod 10 + 48).

(** ["%04d" % n] and ["%02d" % n] for the fields of a date. *)
Definition pad4 (n : Z) : str :=
  [digit_char (n / 1000); digit_char (n / 100); digit_char (n / 10); digit_char n].
Definition pad2 (n : Z) : str := [digit_char (n / 10); digit_char n].

(** The directives of the two formats of the module and their patterns, as
    [_strptime] compiles them. *)
Inductive directive := FY | Fm | Fd | FChar (c : char).

Definition directive_regex (f : directive) : regex :=
  match f with
  | FY => RGroup 1 (digit +++ digit +++ digit +++ digit)
  | Fm => RGroup 2 (RAlt (RChar (ch "1") +++ RSet (in_range "0" "2"))
                   (RAlt (RChar (ch "0") +++ RSet (in_range "1" "9"))
                         (RSet (in_range "1" "9"))))
  | Fd => RGroup 3 (RAlt (RChar (ch "3") +++ RSet (in_range "0" "1"))
                   (RAlt (RSet (in_range "1" "2") +++ digit)
                   (RAlt (RChar (ch "0") +++ RSet (in_range "1" "9"))
                   (RAlt (RSet (in_range "1" "9"))
                         (RChar (ch " ") +++ RSet (in_range "1" "9"))))))
  | FChar c => RChar c
  end%regex.

Definition format_regex (fmt : list directive) : regex :=
  fold_right (fun f r => RSeq (directive_regex f) r) REps fmt.

(** [datetime.strptime(s, fmt)] for a format made of [%Y], [%m], [%d] and
    literal characters: the format's pattern must match all of [s], and the
    fields must name a day of the calendar. *)
Definition strptime (s : str) (fmt : list directive) : result datetime :=
  match match_at (format_regex fmt) (Cursor [] s) with
  | Some (c', m) =>
    match after c' with
    | [] =>
      match m_group 1 m, m_group 2 m, m_group 3 m with
      | Some y, Some mo, Some d =>
        mk_datetime (int_of_digits y) (int_of_digits mo)
                    (int_of_digits (filter is_digit d))
      | _, _, _ => Err ValueError
      end
    | _ => Err ValueError
    end
  | None => Err ValueError
  end.

(** ["%Y年%m月%d日"] and ["%Y-%m-%d"] *)
Definition fmt_cn : list directive :=
  [FY; FChar c_year; Fm; FChar c_month; Fd; FChar c_day].
Definition fmt_iso : list directive := [FY; FChar (ch "-"); Fm; FChar (ch "-"); Fd].

(** [t.strftime("%Y-%m-%d")] and [t.strftime("%Y")], the year on four
    digits (as every platform writes the years from 1000 on). *)
Definition strftime_iso (t : datetime) : str :=
  pad4 (dt_year t) ++ u "-" ++ pad2 (dt_month t) ++ u "-" ++ pad2 (dt_day t).
Definition strftime_Y (t : datetime) : str := pad4 (dt_year t).

(** ** The notice parser: [parse_holiday_info]

    A holiday line of the result is the triple [(from_date, to_date,
    need_work)]. *)

Definition interval := (str * str * bool)%type.

(** A [for] loop over [l] whose body updates the loop state [s] and may
    raise, which ends the loop. *)
Fixpoint for_each {S A} (body : S -> A -> result S) (s : S) (l : list A)
  : result S :=
  match l with
  | [] => Ok s
  | x :: l' => s' <- body s x ;; for_each body s' l'
  end.

(** The body of [for holiday_occur in reg_holiday_occur.finditer(...)]:
    the three names are unpacked from [holiday_occur.groups()]. *)
Definition holiday_occur_body (year : str) (holiday_data : list interval)
    (holiday_occur : mobj) : result (list interval) :=
  match groups holiday_occur with
  | [first_holiday; last_holiday; count_day] =>
    let count_day := match count_day with None => u "1" | Some c => c end in
    first_holiday <-
      match first_holiday with
      | Some f => Ok (if negb (contains c_year f) then year ++ [c_year] ++ f else f)
      | None => Err TypeError
      end ;;
    first_holiday <- strptime first_holiday fmt_cn ;;
    n <- py_int count_day ;;
    last_holiday <- add_days first_holiday (n - 1) ;;
    Ok (holiday_data
        ++ [(strftime_iso first_holiday, strftime_iso last_holiday, false)])
  | _ => Err ValueError   (* not enough, or too many, values to unpack *)
  end.

(** The holiday-interval extraction on one (fixed) line. *)
Definition extract_holidays (year : str) (holiday_data : list interval)
    (holiday_line : str) : result (list interval) :=
  for_each (holiday_occur_body year) holiday_data
           (finditer reg_holiday_occur holiday_line).

(** The two [if]s that fill in the month and the year of a day mention. *)
Definition complete_workday (year before_workday workday : str) : result str :=
  workday <-
    (if negb (contains c_month workday)
     then match index c_month before_workday with
          | Some i => Ok (firstn (i + 1) before_workday ++ workday)
          | None => Err ValueError
          end
     else Ok workday) ;;
  Ok (if negb (contains c_year workday) then year ++ [c_year] ++ workday
      else workday).

(** The body of [for workday in workdays]; the loop state is
    [before_workday] and [holiday_data]. *)
Definition workday_body (year : str) (st : str * list interval) (workday : str)
  : result (str * list interval) :=
  let '(before_workday, holiday_data) := st in
  workday <- complete_workday year before_workday workday ;;
  let before_workday := workday in
  t <- strptime workday fmt_cn ;;
  let workday := strftime_iso t in
  Ok (before_workday, holiday_data ++ [(workday, workday, true)]).

(** [before_workday = ""] and the loop [for workday in workdays]. *)
Definition workdays_loop (year : str) (holiday_data : list interval)
    (workdays : list str) : result (list interval) :=
  '(_, holiday_data) <-
    for_each (workday_body year) ([], holiday_data) workdays ;;
  Ok holiday_data.

(** The body of [for workday_occur in re.finditer(...)]. *)
Definition workday_occur_body (year : str) (holiday_data : list interval)
    (workday_occur : mobj) : result (list interval) :=
  match m_group 1 workday_occur with
  | Some work_str =>
    let workdays := findall reg_workday work_str in
    workdays_loop year holiday_data workdays
  | None => Err TypeError
  end.

(** The compensating-workday extraction on one (fixed) line. *)
Definition extract_workdays (year : str) (holiday_data : list interval)
    (holiday_line : str) : result (list interval) :=
  for_each (workday_occur_body year) holiday_data
           (finditer reg_workday_occur holiday_line).

(** The body of [for holiday_line in holiday_lines]. *)
Definition holiday_line_body (year : str) (holiday_data : list interval)
    (holiday_line : str) : result (list interval) :=
  let holiday_line := fix_line holiday_line in
  holiday_data <- extract_holidays year holiday_data holiday_line ;;
  extract_workdays year holiday_data holiday_line.

(** [parse_holiday_info] from the text of the notice on: what the function
    does once the page is fetched and its text extracted. *)
Definition parse_holiday_text (text : str) : result (str * list interval) :=
  let holiday_lines := split text in
  match re_match reg_title (concat holiday_lines) with
  | Some m =>
    match m_group 1 m with
    | Some year =>
      holiday_data <- for_each (holiday_line_body year) [] holiday_lines ;;
      Ok (year, holiday_data)
    | None => Err TypeError
    end
  | None => Err WrongMessage
  end.

(** ** Python values

    What the cache holds once decoded, and what the parser hands over: the
    values of JSON, and tuples.  A [dict] keeps its items in insertion
    order; a [float] is its binary64 bit pattern. *)

#[local] Set Warnings "-register-all".

Inductive pyval :=
| PNone
| PBool (b : bool)
| PInt (z : Z)
| PFloat (bits : Z)
| PStr (s : str)
| PList (l : list pyval)
| PTuple (l : list pyval)
| PDict (d : list (str * pyval)).

Definition dict := list (str * pyval).

(** [d.get(k, None)] *)
Fixpoint dict_get (k : str) (d : dict) : pyval :=
  match d with
  | [] => PNone
  | (k', v) :: d' => if str_eqb k k' then v else dict_get k d'
  end.

(** [d[k] = v]: an existing key keeps its place. *)
Fixpoint dict_set (k : str) (v : pyval) (d : dict) : dict :=
  match d with
  | [] => [(k, v)]
  | (k', v') :: d' =>
    if str_eqb k k' then (k', v) :: d' else (k', v') :: dict_set k v d'
  end.

(** [v is None] *)
Definition is_None (v : pyval) : bool :=
  match v with PNone => true | _ => false end.

(** [bool(v)] *)
Definition truthy (v : pyval) : bool :=
  match v with
  | PNone => false
  | PBool b => b
  | PInt z => negb (z =? 0)
  | PFloat bits => negb (Z.land bits 0x7FFFFFFFFFFFFFFF =? 0)
  | PStr s => negb (Nat.eqb (length s) 0)
  | PList l | PTuple l => negb (Nat.eqb (length l) 0)
  | PDict d => negb (Nat.eqb (length d) 0)
  end.

(** The parser's list of tuples as a value. *)
Definition py_of_interval (i : interval) : pyval :=
  let '(from_date, to_date, need_work) := i in
  PTuple [PStr from_date; PStr to_date; PBool need_work].

Definition py_of_intervals (l : list interval) : pyval :=
  PList (map py_of_interval l).

(** What [json] makes of a value on the way to the file and back: a tuple
    is written as an array and read as a list. *)
Fixpoint json_image (v : pyval) : pyval :=
  match v with
  | PList l | PTuple l => PList (map json_image l)
  | PDict d => PDict (map (fun kv => (fst kv, json_image (snd kv))) d)
  | _ => v
  end.

(** ** The outside world

    The [json] library and the network are collaborators of the module.
    [json_load] reads and decodes a document, [json_dump] writes one;
    [search_notice_url] and [fetch_text] stand for the two requests
    ([fetch_text] is [parse_holiday_info] up to the text of the page). *)

Class Json := {
  document : Type;
  json_load : document -> result pyval;
  json_dump : pyval -> document
}.

Class Web := {
  search_notice_url : str -> result (option str);
  fetch_text : option str -> result str
}.

(** The file at [HOLIDAY_DATA_PATH], if there is one. *)
Definition filesystem `{Json} := option document.

(** The argument of [is_holiday]: a [str], a [datetime], or anything
    else. *)
Inductive date_arg :=
| ArgStr (s : str)
| ArgDatetime (t : datetime)
| ArgOther.

Section Cache.
Context `{J : Json} `{W : Web}.

(** [parse_holiday_info(url)]: the page is fetched, its text parsed. *)
Definition parse_holiday_info (url : option str)
  : result (str * list interval) :=
  text <- fetch_text url ;;
  parse_holiday_text text.

(** [save_all_holiday]: the file is replaced by the dump of the mapping. *)
Definition save_all_holiday (all_holiday : dict) (fs : filesystem)
  : filesystem :=
  Some (json_dump (PDict all_holiday)).

(** [read_all_holiday]: [open] raises without a file; a document that does
    not decode, or not to a [dict], is read as [{}]. *)
Definition read_all_holiday (fs : filesystem) : result dict :=
  match fs with
  | None => Err FileNotFoundError
  | Some fp =>
    let all_holiday :=
      match json_load fp with
      | Ok v => v
      | Err _ => PDict []
      end in
    match all_holiday with
    | PDict d => Ok d
    | _ => Ok []
    end
  end.

(** [get_holiday_data(year, force_refresh)]: the result and the file
    system after the call.  [all_holiday] is [None] while the local name is
    unbound. *)
Definition get_holiday_data (year : str) (force_refresh : bool)
    (fs : filesystem) : result pyval * filesystem :=
  let loaded :=
    match fs with
    | Some _ =>
      all_holiday <- read_all_holiday fs ;;
      Ok (Some all_holiday, dict_get year all_holiday)
    | None => Ok (None, PNone)
    end in
  match loaded with
  | Err e => (Err e, fs)
  | Ok (all_holiday, holiday_data) =>
    if is_None holiday_data || force_refresh then
      match (url <- search_notice_url year ;; parse_holiday_info url) with
      | Err e => (Err e, fs)
      | Ok (parsed_year, holiday_data) =>
        if negb (str_eqb parsed_year year)
           || Nat.eqb (length holiday_data) 0
        then (Err CannotParse, fs)
        else
          match all_holiday with
          | None => (Err UnboundLocalError, fs)
          | Some all_holiday =>
            let all_holiday :=
              dict_set year (py_of_intervals holiday_data) all_holiday in
            (Ok (py_of_intervals holiday_data),
             save_all_holiday all_holiday fs)
          end
      end
    else (Ok holiday_data, fs)
  end.

(** [from_date, to_date, work = holiday_line] *)
Definition unpack3 (holiday_line : pyval) : result (pyval * pyval * pyval) :=
  let items :=
    match holiday_line with
    | PList l | PTuple l => Ok l
    | PStr s => Ok (map (fun c => PStr [c]) s)
    | PDict d => Ok (map (fun kv => PStr (fst kv)) d)
    | _ => Err TypeError
    end in
  l <- items ;;
  match l with
  | [a; b; c] => Ok (a, b, c)
  | _ => Err ValueError
  end.

(** [datetime.strptime(v, fmt)] on a value: [TypeError] unless a [str]. *)
Definition strptime_py (v : pyval) (fmt : list directive) : result datetime :=
  match v with
  | PStr s => strptime s fmt
  | _ => Err TypeError
  end.

(** The [for holiday_line in holiday_lines] loop of [is_holiday]:
    [Some b] when it returns [b], [None] when it runs to its end. *)
Fixpoint scan_lines (date_time : datetime) (holiday_lines : list pyval)
  : result (option bool) :=
  match holiday_lines with
  | [] => Ok None
  | holiday_line :: rest =>
    '(from_date, to_date, work) <- unpack3 holiday_line ;;
    from_date <- strptime_py from_date fmt_iso ;;
    to_date <- strptime_py to_date fmt_iso ;;
    if dt_leb from_date date_time && dt_leb date_time to_date
    then Ok (Some (negb (truthy work)))
    else scan_lines date_time rest
  end.

(** [date_time.weekday() in (5, 6)] *)
Definition is_weekend (date_time : datetime) : bool :=
  (weekday date_time =? 5) || (weekday date_time =? 6).

(** The first lines of [is_holiday]: a [str] is parsed, anything but a
    [datetime] then fails the assertion. *)
Definition as_datetime (date_time : date_arg) : result datetime :=
  match date_time with
  | ArgStr s => strptime s fmt_iso
  | ArgDatetime t => Ok t
  | ArgOther => Err AssertionError
  end.

(** [is_holiday(date_time)]: the result and the file system after the
    call. *)
Definition is_holiday (date_time : date_arg) (fs : filesystem)
  : result bool * filesystem :=
  match as_datetime date_time with
  | Err e => (Err e, fs)
  | Ok date_time =>
    let year := strftime_Y date_time in
    match get_holiday_data year false fs with
    | (Err e, fs') => (Err e, fs')
    | (Ok holiday_lines, fs') =>
      match holiday_lines with
      | PList ((_ :: _) as holiday_lines) =>
        (found <- scan_lines date_time holiday_lines ;;
         Ok (match found with
             | Some b => b
             | None => is_weekend date_time
             end), fs')
      | _ => (Err AssertionError, fs')
      end
    end
  end.

End Cache.

(** An in-memory document store: a document is either unreadable or holds
    the value that was written. *)
Inductive memdoc := Garbled | Written (v : pyval).

Definition mem_json : Json := {|
  document := memdoc;
  json_load := fun d => match d with Garbled => Err ValueError | Written v => Ok v end;
  json_dump := fun v => Written (json_image v)
|}.

(** A web that serves one notice text for every year. *)
Definition one_notice (text : string) : Web := {|
  search_notice_url := fun _ => Ok (Some (u "https://www.gov.cn/notice.htm"));
  fetch_text := fun _ => Ok (u text)
|}.

(** ** The [json] library on text

    [json.dump(v, fp, indent=2, ensure_ascii=False)] and [json.load(fp)],
    as CPython has them: the encoder of [json.encoder] with an indent, and
    the scanner of the [_json] module.  The document is the text of the
    file, which [open] with [encoding="utf8"] writes and reads back as it
    is when it holds no surrogate (the encoder escapes the line feeds and
    carriage returns of the strings, so the newline translation of a text
    file finds none but the encoder's own line feeds).  The text of a
    [float] is Python's ([repr] and [float]), and the interpreter sets how
    many containers the scanner may enter and how long the numeral of an
    [int] may be: these are the variables of the section.  (The encoder
    recurses too; a store nests three deep.) *)

Definition c_quote : char := 34%N.
Definition c_backslash : char := 92%N.

Definition hex_digit (n : N) : char := (if n <? 10 then 48 + n else 87 + n)%N.

(** ['\\u{0:04x}'.format(c)] *)
Definition escape_u (c : char) : str :=
  [c_backslash; ch "u"; hex_digit ((c / 4096) mod 16)%N;
   hex_digit ((c / 256) mod 16)%N; hex_digit ((c / 16) mod 16)%N;
   hex_digit (c mod 16)%N].

(** [ESCAPE_DCT]: the quote, the backslash and the control characters. *)
Definition escape_char (c : char) : str :=
  if (c =? 34)%N then [c_backslash; c_quote]
  else if (c =? 92)%N then [c_backslash; c_backslash]
  else if (c =? 8)%N then [c_backslash; ch "b"]
  else if (c =? 12)%N then [c_backslash; ch "f"]
  else if (c =? 10)%N then [c_backslash; ch "n"]
  else if (c =? 13)%N then [c_backslash; ch "r"]
  else if (c =? 9)%N then [c_backslash; ch "t"]
  else if (c <? 32)%N then escape_u c
  else [c].

(** [encode_basestring], the encoder of strings without [ensure_ascii]. *)
Definition encode_basestring (s : str) : str :=
  c_quote :: flat_map escape_char s ++ [c_quote].

(** [int.__repr__] *)
Fixpoint uint_text (d : Decimal.uint) : str :=
  match d with
  | Decimal.Nil => []
  | Decimal.D0 d => ch "0" :: uint_text d
  | Decimal.D1 d => ch "1" :: uint_text d
  | Decimal.D2 d => ch "2" :: uint_text d
  | Decimal.D3 d => ch "3" :: uint_text d
  | Decimal.D4 d => ch "4" :: uint_text d
  | Decimal.D5 d => ch "5" :: uint_text d
  | Decimal.D6 d => ch "6" :: uint_text d
  | Decimal.D7 d => ch "7" :: uint_text d
  | Decimal.D8 d => ch "8" :: uint_text d
  | Decimal.D9 d => ch "9" :: uint_text d
  end.

Definition int_repr (z : Z) : str :=
  match Z.to_int z with
  | Decimal.Pos d => uint_text d
  | Decimal.Neg d => ch "-" :: uint_text d
  end.

(** ['\n' + _indent * _current_indent_level], with [indent=2]. *)
Definition newline_indent (level : nat) : str :=
  10%N :: repeat 32%N (2 * level).

(** The items of a container, the separator between them. *)
Definition join (sep : str) (items : list str) : str :=
  match items with
  | [] => []
  | x :: l => x ++ flat_map (fun y => sep ++ y) l
  end.

(** The whitespace of JSON. *)
Definition is_json_space (c : char) : bool :=
  ((c =? 32) || (c =? 9) || (c =? 10) || (c =? 13))%N.

Fixpoint skip_space (s : str) : str :=
  match s with
  | c :: t => if is_json_space c then skip_space t else s
  | [] => []
  end.

Definition hex_val (c : char) : option N :=
  if ((48 <=? c) && (c <=? 57))%N then Some (c - 48)%N
  else if ((97 <=? c) && (c <=? 102))%N then Some (c - 87)%N
  else if ((65 <=? c) && (c <=? 70))%N then Some (c - 55)%N
  else None.

Definition hex4 (a b c d : char) : option N :=
  match hex_val a, hex_val b, hex_val c, hex_val d with
  | Some x, Some y, Some z, Some w => Some (((x * 16 + y) * 16 + z) * 16 + w)%N
  | _, _, _, _ => None
  end.

(** The escapes of one letter. *)
Definition unescape (c : char) : option char :=
  if (c =? 34)%N || (c =? 92)%N || (c =? 47)%N then Some c
  else if (c =? 98)%N then Some 8%N
  else if (c =? 102)%N then Some 12%N
  else if (c =? 110)%N then Some 10%N
  else if (c =? 114)%N then Some 13%N
  else if (c =? 116)%N then Some 9%N
  else None.

Definition is_high_surrogate (c : N) : bool := ((0xD800 <=? c) && (c <=? 0xDBFF))%N.
Definition is_low_surrogate (c : N) : bool := ((0xDC00 <=? c) && (c <=? 0xDFFF))%N.
Definition join_surrogates (hi lo : N) : N :=
  (0x10000 + (N.lor (N.shiftl (N.land hi 0x3FF) 10) (N.land lo 0x3FF)))%N.

(** [scanstring], from the character after the opening quote: the string
    and the text after the closing quote.  A control character, an unknown
    escape and a missing quote are errors ([JSONDecodeError] is a
    [ValueError]). *)
Fixpoint scanstring (acc : str) (s : str) : result (str * str) :=
  match s with
  | [] => Err ValueError
  | c :: t =>
    if (c =? 34)%N then Ok (rev acc, t)
    else if (c =? 92)%N then
      match t with
      | [] => Err ValueError
      | e :: t1 =>
        if (e =? 117)%N then
          match t1 with
          | h1 :: h2 :: h3 :: h4 :: t2 =>
            match hex4 h1 h2 h3 h4 with
            | Some c1 =>
              if is_high_surrogate c1 then
                match t2 with
                | b :: v :: k1 :: k2 :: k3 :: k4 :: t3 =>
                  if (b =? 92)%N && (v =? 117)%N then
                    match hex4 k1 k2 k3 k4 with
                    | Some c2 =>
                      if is_low_surrogate c2
                      then scanstring (join_surrogates c1 c2 :: acc) t3
                      else scanstring (c1 :: acc) t2
                    | None => Err ValueError
                    end
                  else scanstring (c1 :: acc) t2
                | _ => scanstring (c1 :: acc) t2
                end
              else scanstring (c1 :: acc) t2
            | None => Err ValueError
            end
          | _ => Err ValueError
          end
        else
          match unescape e with
          | Some x => scanstring (x :: acc) t1
          | None => Err ValueError
          end
      end
    else if (c <=? 31)%N then Err ValueError
    else scanstring (c :: acc) t
  end.

(** [s] without the prefix [p], when it starts with it. *)
Fixpoint strip_prefix (p s : str) : option str :=
  match p, s with
  | [], _ => Some s
  | x :: p', y :: s' => if char_eqb x y then strip_prefix p' s' else None
  | _ :: _, [] => None
  end.

Definition is_ascii_digit (c : char) : bool := ((48 <=? c) && (c <=? 57))%N.

(** The longest run of ASCII digits at the start of [s], and the rest. *)
Fixpoint span_digits (s : str) : str * str :=
  match s with
  | c :: t =>
    if is_ascii_digit c
    then let '(ds, r) := span_digits t in (c :: ds, r)
    else ([], s)
  | [] => ([], [])
  end.

Definition int_of_ascii (s : str) : Z :=
  fold_left (fun acc c => acc * 10 + (Z.of_N c - 48)) s 0.

Section JsonText.
Variable float_repr : Z -> str.
Variable float_of_literal : str -> Z.
Variable recursion_limit : nat.
Variable int_max_str_digits : nat.

(** [_iterencode], at an indent level. *)
Fixpoint iterencode (level : nat) (v : pyval) : str :=
  match v with
  | PNone => u "null"
  | PBool true => u "true"
  | PBool false => u "false"
  | PInt z => int_repr z
  | PFloat bits => float_repr bits
  | PStr s => encode_basestring s
  | PList l | PTuple l =>
    match l with
    | [] => u "[]"
    | _ =>
      u "[" ++ newline_indent (S level)
      ++ join (u "," ++ newline_indent (S level)) (map (iterencode (S level)) l)
      ++ newline_indent level ++ u "]"
    end
  | PDict d =>
    match d with
    | [] => u "{}"
    | _ =>
      u "{" ++ newline_indent (S level)
      ++ join (u "," ++ newline_indent (S level))
              (map (fun kv => encode_basestring (fst kv) ++ u ": "
                              ++ iterencode (S level) (snd kv)) d)
      ++ newline_indent level ++ u "}"
    end
  end.

(** [_match_number]: a sign, the integer part, a fraction, an exponent.
    An [int] whose numeral is longer than the limit (when there is one) is
    refused. *)
Definition match_number (s : str) : result (pyval * str) :=
  let '(sign, s1) :=
    match s with
    | c :: t => if (c =? 45)%N then ([c], t) else ([], s)
    | [] => ([], s)
    end in
  match s1 with
  | [] => Err ValueError
  | c :: t =>
    let int_part :=
      if ((49 <=? c) && (c <=? 57))%N
      then let '(ds, r) := span_digits t in Some (c :: ds, r)
      else if (c =? 48)%N then Some ([c], t)
      else None in
    match int_part with
    | None => Err ValueError
    | Some (ip, r) =>
      let '(frac, r) :=
        match r with
        | p :: r1 =>
          if (p =? 46)%N
          then match span_digits r1 with
               | ([], _) => ([], r)
               | (fs, r2) => (p :: fs, r2)
               end
          else ([], r)
        | [] => ([], r)
        end in
      let '(expo, r) :=
        match r with
        | e :: r1 =>
          if (e =? 101)%N || (e =? 69)%N
          then
            let '(sg, r2) :=
              match r1 with
              | c2 :: r2 =>
                if (c2 =? 45)%N || (c2 =? 43)%N then ([c2], r2) else ([], r1)
              | [] => ([], r1)
              end in
            match span_digits r2 with
            | ([], _) => ([], r)
            | (es, r3) => (e :: sg ++ es, r3)
            end
          else ([], r)
        | [] => ([], r)
        end in
      match frac ++ expo with
      | [] =>
        if negb (Nat.eqb int_max_str_digits 0)
           && Nat.ltb int_max_str_digits (length ip)
        then Err ValueError
        else Ok (PInt (match sign with
                       | [] => int_of_ascii ip
                       | _ => - int_of_ascii ip
                       end), r)
      | fe => Ok (PFloat (float_of_literal (sign ++ ip ++ fe)), r)
      end
    end
  end.

(** The named constants. *)
Definition constant (s : str) : option (pyval * str) :=
  match strip_prefix (u "null") s with
  | Some r => Some (PNone, r)
  | None =>
  match strip_prefix (u "true") s with
  | Some r => Some (PBool true, r)
  | None =>
  match strip_prefix (u "false") s with
  | Some r => Some (PBool false, r)
  | None =>
  match strip_prefix (u "NaN") s with
  | Some r => Some (PFloat 0x7FF8000000000000, r)
  | None =>
  match strip_prefix (u "Infinity") s with
  | Some r => Some (PFloat 0x7FF0000000000000, r)
  | None =>
  match strip_prefix (u "-Infinity") s with
  | Some r => Some (PFloat 0xFFF0000000000000, r)
  | None => None
  end end end end end end.

(** The loop of [_parse_array], from the first item on.  [n] bounds the
    number of items by the length of the text. *)
Fixpoint array_items (scan : str -> result (pyval * str)) (n : nat)
    (acc : list pyval) (s : str) : result (pyval * str) :=
  '(v, r) <- scan s ;;
  match skip_space r with
  | c :: t =>
    if (c =? 93)%N then Ok (PList (rev (v :: acc)), t)
    else if (c =? 44)%N then
      match n with
      | O => Err ValueError
      | S n' => array_items scan n' (v :: acc) (skip_space t)
      end
    else Err ValueError
  | [] => Err ValueError
  end.

Definition parse_array (scan : str -> result (pyval * str)) (s : str)
  : result (pyval * str) :=
  match skip_space s with
  | c :: t =>
    if (c =? 93)%N then Ok (PList [], t)
    else array_items scan (length s) [] (c :: t)
  | [] => Err ValueError
  end.

(** The loop of [_parse_object], from the first key on; the pairs are set
    in the [dict] one after the other. *)
Fixpoint object_items (scan : str -> result (pyval * str)) (n : nat)
    (d : dict) (s : str) : result (pyval * str) :=
  match s with
  | q :: t =>
    if (q =? 34)%N then
      '(k, r) <- scanstring [] t ;;
      match skip_space r with
      | c :: r1 =>
        if (c =? 58)%N then
          '(v, r2) <- scan (skip_space r1) ;;
          let d := dict_set k v d in
          match skip_space r2 with
          | c2 :: r3 =>
            if (c2 =? 125)%N then Ok (PDict d, r3)
            else if (c2 =? 44)%N then
              match n with
              | O => Err ValueError
              | S n' => object_items scan n' d (skip_space r3)
              end
            else Err ValueError
          | [] => Err ValueError
          end
        else Err ValueError
      | [] => Err ValueError
      end
    else Err ValueError
  | [] => Err ValueError
  end.

Definition parse_object (scan : str -> result (pyval * str)) (s : str)
  : result (pyval * str) :=
  match skip_space s with
  | c :: t =>
    if (c =? 125)%N then Ok (PDict [], t)
    else object_items scan (length s) [] (c :: t)
  | [] => Err ValueError
  end.

(** [scan_once]: one JSON value at the start of [s], and the rest of the
    text.  [limit] is the number of containers the scanner may still
    enter. *)
Fixpoint scan_once (limit : nat) (s : str) : result (pyval * str) :=
  match s with
  | [] => Err ValueError
  | c :: t =>
    if (c =? 34)%N then '(x, r) <- scanstring [] t ;; Ok (PStr x, r)
    else if (c =? 123)%N then
      match limit with
      | O => Err RecursionError
      | S limit' => parse_object (scan_once limit') t
      end
    else if (c =? 91)%N then
      match limit with
      | O => Err RecursionError
      | S limit' => parse_array (scan_once limit') t
      end
    else
      match constant s with
      | Some r => Ok r
      | None => match_number s
      end
  end.

(** [json.loads]: no byte order mark, one value, and nothing but
    whitespace around it. *)
Definition json_loads (s : str) : result pyval :=
  if match s with c :: _ => (c =? 0xFEFF)%N | [] => false end
  then Err ValueError
  else
    '(v, r) <- scan_once recursion_limit (skip_space s) ;;
    match skip_space r with
    | [] => Ok v
    | _ => Err ValueError
    end.

Definition json_dumps (v : pyval) : str := iterencode 0 v.

End JsonText.

(** The values the round trip is proved for: [None], booleans, strings,
    and lists, tuples and dicts of such values, the keys of a dict all
    different. *)
Fixpoint distinct (l : list str) : bool :=
  match l with
  | [] => true
  | x :: l' => negb (existsb (str_eqb x) l') && distinct l'
  end.

Fixpoint plain (v : pyval) : bool :=
  match v with
  | PNone | PBool _ | PStr _ => true
  | PInt _ | PFloat _ => false
  | PList l | PTuple l => forallb plain l
  | PDict d => distinct (map fst d) && forallb (fun kv => plain (snd kv)) d
  end.

(** The number of containers nested in a value. *)
Fixpoint depth (v : pyval) : nat :=
  match v with
  | PList l | PTuple l => S (list_max (map depth l))
  | PDict d => S (list_max (map (fun kv => depth (snd kv)) d))
  | _ => O
  end.

(** The first character of the text of a plain value: a quote, a bracket, a
    brace, or the first letter of [null], [true] or [false]. *)
Definition opens (c : char) : bool :=
  ((c =? 34) || (c =? 91) || (c =? 123) || (c =? 110) || (c =? 116)
   || (c =? 102))%N.

(** The text of one item of a dict. *)
Definition entry (float_repr : Z -> str) (level : nat) (kv : str * pyval)
  : str :=
  encode_basestring (fst kv) ++ u ": " ++ iterencode float_repr level (snd kv).

(** A scanner reads a value back from its text at an indent level, whatever
    text follows. *)
Definition reads_back (float_repr : Z -> str)
    (scan : str -> result (pyval * str)) (level : nat) (v : pyval) : Prop :=
  (forall r, scan (iterencode float_repr level v ++ r) = Ok (json_image v, r))
  /\ exists c t, iterencode float_repr level v = c :: t /\ opens c = true.

(** A value without tuples. *)
Fixpoint no_tuple (v : pyval) : bool :=
  match v with
  | PTuple _ => false
  | PList l => forallb no_tuple l
  | PDict d => forallb (fun kv => no_tuple (snd kv)) d
  | _ => true
  end.

(** The file is written as UTF-8: a text can be written when it holds no
    surrogate. *)
Definition utf8_char (c : char) : bool :=
  ((c <? 0xD800) || (0xDFFF <? c) && (c <? 0x110000))%N.

Definition utf8_text (s : str) : bool := forallb utf8_char s.

(** The library on the text of the file. *)
Definition text_json (float_repr : Z -> str) (float_of_literal : str -> Z)
    (recursion_limit int_max_str_digits : nat) : Json := {|
  document := str;
  json_load := json_loads float_of_literal recursion_limit int_max_str_digits;
  json_dump := json_dumps float_repr
|}.

(** ** The data model of the cache

    A [HolidayStore] maps a year to its holiday lines; [store_of_py] reads a
    decoded cache as one (a line may be a list, as [json] reads it, or a
    tuple, as the parser builds it). *)

Definition HolidayStore := list (str * list interval).

Definition interval_of_py (v : pyval) : option interval :=
  match v with
  | PList [PStr from_date; PStr to_date; PBool need_work]
  | PTuple [PStr from_date; PStr to_date; PBool need_work] =>
    Some (from_date, to_date, need_work)
  | _ => None
  end.

Fixpoint intervals_of_list (l : list pyval) : option (list interval) :=
  match l with
  | [] => Some []
  | v :: l' =>
    match interval_of_py v, intervals_of_list l' with
    | Some i, Some r => Some (i :: r)
    | _, _ => None
    end
  end.

Definition intervals_of_py (v : pyval) : option (list interval) :=
  match v with
  | PList l => intervals_of_list l
  | _ => None
  end.

Fixpoint store_of_py (d : dict) : option HolidayStore :=
  match d with
  | [] => Some []
  | (year, v) :: d' =>
    match intervals_of_py v, store_of_py d' with
    | Some l, Some r => Some ((year, l) :: r)
    | _, _ => None
    end
  end.

(** A store as the module holds it after parsing. *)
Definition py_of_store (s : HolidayStore) : dict :=
  map (fun yl => (fst yl, py_of_intervals (snd yl))) s.

(** The items of a [dict] after a trip through [json]. *)
Definition dict_image (d : dict) : dict :=
  map (fun kv => (fst kv, json_image (snd kv))) d.

(** The test of the loop of [is_holiday] on an interval:
    [date_time >= from_date and date_time <= to_date], the comparison of
    [datetime], with both ends read at midnight. *)
Definition covers (t : datetime) (i : interval) : bool :=
  match strptime (fst (fst i)) fmt_iso, strptime (snd (fst i)) fmt_iso with
  | Ok a, Ok b => dt_leb a t && dt_leb t b
  | _, _ => false
  end.

(** The days of the calendar in their order: the day of [a] is the day of
    [b] or an earlier day. *)
Definition day_le (a b : datetime) : Prop :=
  dt_year a < dt_year b
  \/ (dt_year a = dt_year b
      /\ (dt_month a < dt_month b
          \/ (dt_month a = dt_month b /\ dt_day a <= dt_day b))).

(** The inclusive range of the interval, from the day [from_date] to the day
    [to_date], holds the day of [t]. *)
Definition holds_day (i : interval) (t : datetime) : Prop :=
  exists a b, strptime (fst (fst i)) fmt_iso = Ok a
              /\ strptime (snd (fst i)) fmt_iso = Ok b
              /\ day_le a t /\ day_le t b.

(** Both dates of the interval are dates ["%Y-%m-%d"]. *)
Definition well_dated (i : interval) : Prop :=
  exists a b, strptime (fst (fst i)) fmt_iso = Ok a
              /\ strptime (snd (fst i)) fmt_iso = Ok b.

(** What the cache file holds for a year: [None] without a file or without
    the year. *)
Definition cached `{Json} (year : str) (fs : filesystem) : pyval :=
  match fs with
  | Some _ =>
    match read_all_holiday fs with
    | Ok d => dict_get year d
    | Err _ => PNone
    end
  | None => PNone
  end.

(** ** Day mentions

    The three shapes of a day mention that [reg_workday] finds in a run:
    with year and month, with the month only, and the bare day. *)

Inductive mention :=
| YearMonthDay (y m d : str)
| MonthDay (m d : str)
| DayOnly (d : str).

(** The text of a full date, [y年m月d日]. *)
Definition full_date (ymd : str * str * str) : str :=
  let '(y, m, d) := ymd in
  y ++ [c_year] ++ m ++ [c_month] ++ d ++ [c_day].

Definition render (x : mention) : str :=
  match x with
  | YearMonthDay y m d => full_date (y, m, d)
  | MonthDay m d => m ++ [c_month] ++ d ++ [c_day]
  | DayOnly d => d ++ [c_day]
  end.

Definition all_digits (s : str) : bool := forallb is_digit s.

Definition mention_digits (x : mention) : bool :=
  match x with
  | YearMonthDay y m d => all_digits y && all_digits m && all_digits d
  | MonthDay m d => all_digits m && all_digits d
  | DayOnly d => all_digits d
  end.

Definition states_month (x : mention) : bool :=
  match x with DayOnly _ => false | _ => true end.

(** The rule of inheritance, in the words of the amended claim: a mention
    with its year and month stands as it is; a mention with its month takes
    the notice's year; a bare day takes the year and the month of the mention
    before it, as that one was resolved.  [prev] is the year and month of the
    mention before. *)
Fixpoint resolve (year : str) (prev : str * str) (ms : list mention)
  : list (str * str * str) :=
  match ms with
  | [] => []
  | YearMonthDay y m d :: ms' => (y, m, d) :: resolve year (y, m) ms'
  | MonthDay m d :: ms' => (year, m, d) :: resolve year (year, m) ms'
  | DayOnly d :: ms' => (fst prev, snd prev, d) :: resolve year prev ms'
  end.

(** The text of a run: the mentions, with "、" between them. *)
Fixpoint run_text (ms : list mention) : str :=
  match ms with
  | [] => []
  | [x] => render x
  | x :: ms' => render x ++ [c_comma] ++ run_text ms'
  end.

Definition len_in (lo hi : nat) (s : str) : bool :=
  Nat.leb lo (length s) && Nat.leb (length s) hi.

(** A mention as the patterns read it: four digits for a year, one or two
    for a month and for a day. *)
Definition mention_shape (x : mention) : bool :=
  mention_digits x &&
  match x with
  | YearMonthDay y m d => len_in 4 4 y && len_in 1 2 m && len_in 1 2 d
  | MonthDay m d => len_in 1 2 m && len_in 1 2 d
  | DayOnly d => len_in 1 2 d
  end.

(** The characters of a run: the digits and "年", "月", "日", "、". *)
Definition run_char (c : char) : bool := is_digit c || one_of (u "年月日、") c.

(** The text before a run leaves the run whole: it is empty, or its last
    character is no character of a run. *)
Definition apart (p : str) : bool :=
  match rev p with
  | [] => true
  | c :: _ => negb (run_char c)
  end.

Definition c_ban : char := Eval cbv in ch "班".

(** The loop of [rmatch] on [RPlus r], by name. *)
Definition plus_loop {A} (r : regex) (k : cursor -> captures -> option A) :=
  fix loop (n : nat) (c : cursor) (g : captures) : option A :=
    rmatch r c g (fun c' g' =>
      match n with
      | O => k c' g'
      | S n' => orelse (loop n' c' g') (k c' g')
      end).

Definition c_shang : char := Eval cbv in ch "上".

(** A text date as the ISO date of the result; [ValueError] when it is not a
    day of the calendar. *)
Definition to_iso (s : str) : result str :=
  t <- strptime s fmt_cn ;; Ok (strftime_iso t).

Fixpoint map_result {A B} (f : A -> result B) (l : list A) : result (list B) :=
  match l with
  | [] => Ok []
  | x :: l' => y <- f x ;; r <- map_result f l' ;; Ok (y :: r)
  end.

(** The holiday line of one compensating workday. *)
Definition workday_line (day : str) : interval := (day, day, true).

(** The title [search_notice_url] asks for:
    ["国务院办公厅关于{}年部分节假日安排的通知".format(year)]. *)
Definition notice_title (year : str) : str :=
  u "国务院办公厅关于" ++ year ++ u "年部分节假日安排的通知".



(** The day mentions of the runs of a line, as the two patterns find
    them. *)
Definition workday_mentions (holiday_line : str) : list str :=
  flat_map (fun m => match m_group 1 m with
                     | Some work_str => findall reg_workday work_str
                     | None => []
                     end)
           (finditer reg_workday_occur holiday_line).

(** The groups of the first holiday phrase of a line. *)
Definition groups_of_first (holiday_line : str) : option (list (option str)) :=
  match finditer reg_holiday_occur holiday_line with
  | m :: _ => Some (groups m)
  | [] => None
  end.

(** ** Sample notices and caches *)

Definition notice_2020 : string :=
  "国务院办公厅关于2020年部分节假日安排的通知 1月19日、2月1日上班。".

Definition notice_2019 : string :=
  "国务院办公厅关于2019年部分节假日安排的通知 2月2日、2月3日上班。".

Definition cache_2021 : memdoc :=
  Written (PDict [(u "2021", PList [PList [PStr (u "2021-02-07");
                                            PStr (u "2021-02-07");
                                            PBool true]])]).

Definition cache_empty_2020 : memdoc := Written (PDict [(u "2020", PList [])]).

(** A holiday line as [json] reads it: a list. *)
Definition py_of_interval_list (i : interval) : pyval :=
  let '(from_date, to_date, need_work) := i in
  PList [PStr from_date; PStr to_date; PBool need_work].

(** A year whose lines overlap: the third day of the October holiday is
    also listed as a workday. *)
Definition overlap_2020 : list interval :=
  [(u "2020-10-01", u "2020-10-08", false);
   (u "2020-10-03", u "2020-10-03", true)].

Definition cache_overlap_2020 : memdoc :=
  Written (PDict [(u "2020", PList (map py_of_interval_list overlap_2020))]).

(** The October holiday of 2020 alone, and noon as a time of day. *)
Definition cache_october_2020 : memdoc :=
  Written (PDict [(u "2020",
                   PList [py_of_interval_list
                            (u "2020-10-01", u "2020-10-08", false)])]).

Definition noon : Z := 12 * 3600 * 1000000.

Definition store_2020 : HolidayStore :=
  [(u "2019", [(u "2019-02-02", u "2019-02-02", true)]);
   (u "2020", [(u "2020-01-19", u "2020-01-19", true);
               (u "2020-02-01", u "2020-02-01", true)])].

(** A library for the examples: its floats are all written and read as
    zero (the stores hold none); the limits are the defaults of CPython. *)
Definition sample_json : Json :=
  text_json (fun _ => u "0.0") (fun _ => 0) 1000 4300.

(** A store as it is read from the file: every line a list. *)
Definition py_of_store_lists (s : HolidayStore) : dict :=
  map (fun yl => (fst yl, PList (map py_of_interval_list (snd yl)))) s.

(** * Properties *)

Ltac closed_bool t :=
  let v := eval vm_compute in t in
  match v with
  | true => change t with true
  | false => change t with false
  end.

(** ** The matcher *)

(** A match is always handed to the continuation: whatever [rmatch] returns
    is what the continuation returned at some position. *)
Lemma rmatch_some {A} (r : regex) :
  forall (c : cursor) (g : captures) (k : cursor -> captures -> option A) x,
    rmatch r c g k = Some x -> exists c' g', k c' g' = Some x.
Proof.
  induction r as [|a|p|r1 IH1 r2 IH2|r1 IH1 r2 IH2|r IH|lo hi r IH|r IH|i r IH|a];
    intros c g k x H; simpl in H.
  - eauto.
  - destruct (after c) as [|y t]; [discriminate|].
    destruct (char_eqb a y); [eauto | discriminate].
  - destruct (after c) as [|y t]; [discriminate|].
    destruct (p y); [eauto | discriminate].
  - apply IH1 in H as (c1 & g1 & H1). eauto.
  - unfold orelse in H.
    destruct (rmatch r1 c g k) eqn:E.
    + inversion H; subst. eauto.
    + eauto.
  - unfold orelse in H.
    destruct (rmatch r c g k) eqn:E.
    + inversion H; subst. eauto.
    + eauto.
  - revert lo c g H. induction hi as [|hi IHhi]; intros lo c g H.
    + destruct lo; [eauto | discriminate].
    + destruct lo as [|lo].
      * unfold orelse in H.
        match type of H with
        | match ?m with _ => _ end = _ => destruct m eqn:E
        end.
        -- inversion H; subst.
           apply IH in E as (c1 & g1 & E). eauto.
        -- eauto.
      * apply IH in H as (c1 & g1 & H). eauto.
  - revert H. generalize (length (after c)) as n. intros n.
    revert c g.
    induction n as [|n IHn]; intros c g H.
    + apply IH in H as (c1 & g1 & H). eauto.
    + apply IH in H as (c1 & g1 & H).
      unfold orelse in H.
      match type of H with
      | match ?m with _ => _ end = _ => destruct m eqn:E
      end.
      * inversion H; subst. eauto.
      * eauto.
  - apply IH in H as (c1 & g1 & H). eauto.
  - destruct (before c) as [|y t]; [discriminate|].
    destruct (char_eqb a y); [eauto | discriminate].
Qed.

Lemma forallb_weaken {A} (p q : A -> bool) (l : list A) :
  (forall x, p x = true -> q x = true) ->
  forallb p l = true -> forallb q l = true.
Proof.
  intros H. rewrite !forallb_forall. auto.
Qed.

(** A match consumes a piece of the subject made of characters of the
    pattern, and hands the rest to the continuation. *)
Lemma rmatch_span {A} (r : regex) :
  forall (c : cursor) (g : captures) (k : cursor -> captures -> option A) x,
    rmatch r c g k = Some x ->
    exists w c' g', after c = w ++ after c'
                    /\ forallb (alphabet r) w = true
                    /\ k c' g' = Some x.
Proof.
  induction r as [|a|p|r1 IH1 r2 IH2|r1 IH1 r2 IH2|r IH|lo hi r IH|r IH|i r IH|a];
    intros c g k x H; simpl in H.
  - exists [], c, g. auto.
  - destruct (after c) as [|y t] eqn:E; [discriminate|].
    destruct (char_eqb a y) eqn:Ey; [|discriminate].
    exists [y], (Cursor (y :: before c) t), g. cbn. rewrite Ey. auto.
  - destruct (after c) as [|y t] eqn:E; [discriminate|].
    destruct (p y) eqn:Ey; [|discriminate].
    exists [y], (Cursor (y :: before c) t), g. cbn. rewrite Ey. auto.
  - apply IH1 in H as (w1 & c1 & g1 & E1 & F1 & H).
    apply IH2 in H as (w2 & c2 & g2 & E2 & F2 & H).
    exists (w1 ++ w2), c2, g2. repeat split; [| |exact H].
    + rewrite E1, E2, app_assoc. reflexivity.
    + cbn [alphabet]. rewrite forallb_app. apply andb_true_iff. split.
      * revert F1. apply forallb_weaken. intros y Hy. cbn [alphabet]. rewrite Hy.
        reflexivity.
      * revert F2. apply forallb_weaken. intros y Hy. cbn [alphabet]. rewrite Hy.
        apply orb_true_r.
  - unfold orelse in H.
    destruct (rmatch r1 c g k) eqn:E.
    + inversion H; subst.
      apply IH1 in E as (w & c1 & g1 & E1 & F1 & E).
      exists w, c1, g1. repeat split; auto.
      revert F1. apply forallb_weaken. intros y Hy. cbn [alphabet]. rewrite Hy.
      reflexivity.
    + apply IH2 in H as (w & c1 & g1 & E1 & F1 & H).
      exists w, c1, g1. repeat split; auto.
      revert F1. apply forallb_weaken. intros y Hy. cbn [alphabet]. rewrite Hy.
      apply orb_true_r.
  - unfold orelse in H.
    destruct (rmatch r c g k) eqn:E.
    + inversion H; subst. apply IH in E. exact E.
    + exists [], c, g. auto.
  - change (alphabet (RRep lo hi r)) with (alphabet r).
    revert lo c g H. induction hi as [|hi IHhi]; intros lo c g H.
    + destruct lo; [|discriminate]. exists [], c, g. auto.
    + destruct lo as [|lo].
      * unfold orelse in H.
        match type of H with
        | match ?m with _ => _ end = _ => destruct m eqn:E
        end.
        -- inversion H; subst.
           apply IH in E as (w1 & c1 & g1 & E1 & F1 & E).
           apply IHhi in E as (w2 & c2 & g2 & E2 & F2 & E).
           exists (w1 ++ w2), c2, g2. repeat split; [| |exact E].
           ++ rewrite E1, E2, app_assoc. reflexivity.
           ++ rewrite forallb_app, F1. exact F2.
        -- exists [], c, g. auto.
      * apply IH in H as (w1 & c1 & g1 & E1 & F1 & H).
        apply IHhi in H as (w2 & c2 & g2 & E2 & F2 & H).
        exists (w1 ++ w2), c2, g2. repeat split; [| |exact H].
        -- rewrite E1, E2, app_assoc. reflexivity.
        -- rewrite forallb_app, F1. exact F2.
  - change (alphabet (RPlus r)) with (alphabet r).
    revert H. generalize (length (after c)) as n. intros n.
    revert c g.
    induction n as [|n IHn]; intros c g H.
    + apply IH in H. exact H.
    + apply IH in H as (w1 & c1 & g1 & E1 & F1 & H).
      unfold orelse in H.
      match type of H with
      | match ?m with _ => _ end = _ => destruct m eqn:E
      end.
      * inversion H; subst.
        apply IHn in E as (w2 & c2 & g2 & E2 & F2 & E).
        exists (w1 ++ w2), c2, g2. repeat split; [| |exact E].
        -- rewrite E1, E2, app_assoc. reflexivity.
        -- rewrite forallb_app, F1. exact F2.
      * exists w1, c1, g1. auto.
  - apply IH in H as (w & c1 & g1 & E1 & F1 & H).
    exists w, c1, ((i, between c c1) :: g1). auto.
  - destruct (before c) as [|y t]; [discriminate|].
    destruct (char_eqb a y); [|discriminate].
    exists [], c, g. auto.
Qed.

(** Every match object of a pattern reports the pattern's number of
    groups. *)
Lemma match_at_ngroups (r : regex) (c c' : cursor) (m : mobj) :
  match_at r c = Some (c', m) -> m_ngroups m = ngroups r.
Proof.
  unfold match_at. intros H.
  apply rmatch_some in H as (c1 & g1 & H).
  inversion H; subst. reflexivity.
Qed.

Lemma finditer_from_ngroups (r : regex) :
  forall rest pre skip,
    Forall (fun m => m_ngroups m = ngroups r) (finditer_from r pre rest skip).
Proof.
  induction rest as [|x t IH]; intros pre skip; simpl.
  - destruct skip; [|constructor].
    destruct (match_at r (Cursor pre [])) as [[c' m]|] eqn:E; [|constructor].
    constructor; [|constructor].
    eapply match_at_ngroups; eauto.
  - destruct skip; [|apply IH].
    destruct (match_at r (Cursor pre (x :: t))) as [[c' m]|] eqn:E; [|apply IH].
    constructor; [|apply IH].
    eapply match_at_ngroups; eauto.
Qed.

Lemma groups_length (m : mobj) : length (groups m) = m_ngroups m.
Proof. unfold groups. rewrite length_map, length_seq. reflexivity. Qed.

(** ** The holiday phrase *)

(** Whatever the line and the year: as soon as the holiday pattern matches,
    the loop body unpacks the two groups of the match into three names and
    the extraction raises. *)
Lemma holiday_match_raises (year : str) (holiday_data : list interval)
    (holiday_line : str) :
  finditer reg_holiday_occur holiday_line <> [] ->
  extract_holidays year holiday_data holiday_line = Err ValueError.
Proof.
  unfold extract_holidays, finditer. intros H.
  pose proof (finditer_from_ngroups reg_holiday_occur holiday_line [] O) as F.
  destruct (finditer_from reg_holiday_occur [] holiday_line 0) as [|m l];
    [congruence|].
  inversion F as [|? ? Hm _]; subst.
  simpl. unfold holiday_occur_body.
  pose proof (groups_length m) as L. rewrite Hm in L.
  change (ngroups reg_holiday_occur) with 2%nat in L.
  destruct (groups m) as [|a [|b [|c [|d q]]]]; simpl in L; try discriminate.
  reflexivity.
Qed.

(** C1 (the code departs from the claim).  With notice year "2020", the
    holiday-interval extraction on the line "10月1日至10月8日放假" does not
    yield the interval ("2020-10-01", "2020-10-08", false): the pattern
    matches, with the start and the end date in its two groups, and the loop
    body raises [ValueError] unpacking them into three names; a notice with
    that line is not parsed at all. *)
Theorem holiday_phrase_raises :
  groups_of_first (u "10月1日至10月8日放假")
    = Some [Some (u "10月1日"); Some (u "10月8日")]
  /\ extract_holidays (u "2020") [] (fix_line (u "10月1日至10月8日放假"))
     = Err ValueError
  /\ parse_holiday_text
       (u "国务院办公厅关于2020年部分节假日安排的通知 10月1日至10月8日放假调休，共8天。")
     = Err ValueError.
Proof. repeat split; vm_compute; reflexivity. Qed.

(** What the holiday loop returns, it returns unchanged. *)
Lemma extract_holidays_ok (year : str) (holiday_data hd' : list interval)
    (holiday_line : str) :
  extract_holidays year holiday_data holiday_line = Ok hd' ->
  finditer reg_holiday_occur holiday_line = [] /\ hd' = holiday_data.
Proof.
  intros H.
  destruct (finditer reg_holiday_occur holiday_line) as [|m l] eqn:E.
  - unfold extract_holidays in H. rewrite E in H. cbn in H.
    inversion H; subst. auto.
  - rewrite (holiday_match_raises year holiday_data holiday_line) in H;
      [discriminate|]. rewrite E. discriminate.
Qed.

(** X1.  The holiday loop of [parse_holiday_info] returns on a line exactly
    when the holiday pattern finds nothing on it, and then it leaves the
    list as it was: the loop never appends a holiday. *)
Theorem extract_holidays_returns (year : str)
    (holiday_data hd' : list interval) (holiday_line : str) :
  extract_holidays year holiday_data holiday_line = Ok hd'
  <-> finditer reg_holiday_occur holiday_line = [] /\ hd' = holiday_data.
Proof.
  split.
  - apply extract_holidays_ok.
  - intros [E ->]. unfold extract_holidays. rewrite E. reflexivity.
Qed.

Lemma extract_holidays_returns_witness :
  extract_holidays (u "2020") [] (u "1月19日上班。") = Ok [].
Proof.
  apply (proj2 (extract_holidays_returns (u "2020") [] [] (u "1月19日上班。"))).
  split; [vm_compute; reflexivity | reflexivity].
Defined.

(** ** The cache *)

Lemma str_eqb_refl (a : str) : str_eqb a a = true.
Proof.
  induction a as [|x a IH]; simpl; [reflexivity|].
  unfold char_eqb. rewrite N.eqb_refl. exact IH.
Qed.

Lemma str_eqb_eq (a b : str) : str_eqb a b = true <-> a = b.
Proof.
  split.
  - revert b. induction a as [|x a IH]; intros [|y b] H; simpl in H;
      try discriminate; [reflexivity|].
    apply andb_true_iff in H as [H1 H2].
    apply N.eqb_eq in H1. apply IH in H2. congruence.
  - intros ->. apply str_eqb_refl.
Qed.

Section CacheProperties.
Context `{J : Json} `{W : Web}.

Lemma read_all_holiday_ok (fp : document) :
  exists d, read_all_holiday (Some fp) = Ok d.
Proof.
  unfold read_all_holiday.
  destruct (json_load fp) as [v|e]; [destruct v|]; eauto.
Qed.

Lemma read_all_holiday_dict (fp : document) (d : dict) :
  json_load fp = Ok (PDict d) -> read_all_holiday (Some fp) = Ok d.
Proof. intros H. unfold read_all_holiday. rewrite H. reflexivity. Qed.

(** A year the cache holds is returned as it is, and the file is not
    touched. *)
Lemma get_holiday_data_cached (fp : document) (d : dict) (year : str) :
  json_load fp = Ok (PDict d) ->
  is_None (dict_get year d) = false ->
  get_holiday_data year false (Some fp) = (Ok (dict_get year d), Some fp).
Proof.
  intros Hl Hn. unfold get_holiday_data.
  rewrite (read_all_holiday_dict _ _ Hl). simpl.
  rewrite Hn. reflexivity.
Qed.

End CacheProperties.

(** C8.  A cache file whose content does not decode, or decodes to
    something that is not a mapping, is read as the empty mapping:
    [read_all_holiday] returns [{}] and does not raise. *)
Theorem read_all_holiday_corrupt `{J : Json} (fp : document) :
  (exists e, json_load fp = Err e)
  \/ (exists v, json_load fp = Ok v /\ forall d, v <> PDict d) ->
  read_all_holiday (Some fp) = Ok [].
Proof.
  intros [[e He] | [v [Hv Hd]]]; unfold read_all_holiday.
  - rewrite He. reflexivity.
  - rewrite Hv. destruct v; try reflexivity.
    exfalso. eapply Hd. reflexivity.
Qed.

Lemma read_all_holiday_corrupt_witness :
  read_all_holiday (J := mem_json) (Some Garbled) = Ok []
  /\ read_all_holiday (J := mem_json) (Some (Written (PList [PStr (u "2020")])))
     = Ok [].
Proof.
  split.
  - apply (read_all_holiday_corrupt (J := mem_json) Garbled).
    left. exists ValueError. reflexivity.
  - apply (read_all_holiday_corrupt (J := mem_json)
             (Written (PList [PStr (u "2020")]))).
    right. exists (PList [PStr (u "2020")]). split; [reflexivity|].
    intros d H. discriminate H.
Defined.

(** C2 (the code departs from the claim).  Without a cache file the name
    [all_holiday] is never bound: once the notice is located and parsed, with
    the year asked for and at least one line, the assignment
    [all_holiday[year] = holiday_data] raises [UnboundLocalError]; nothing is
    returned and no file is written. *)
Theorem get_holiday_data_no_cache_file `{J : Json} `{W : Web}
    (year : str) (force_refresh : bool) (url : option str) (text : str)
    (holiday_data : list interval) :
  search_notice_url year = Ok url ->
  fetch_text url = Ok text ->
  parse_holiday_text text = Ok (year, holiday_data) ->
  holiday_data <> [] ->
  get_holiday_data year force_refresh None = (Err UnboundLocalError, None).
Proof.
  intros Hs Hf Hp Hd. unfold get_holiday_data, parse_holiday_info.
  simpl. rewrite Hs. simpl. rewrite Hf. simpl. rewrite Hp.
  rewrite str_eqb_refl. simpl.
  destruct holiday_data; [congruence | reflexivity].
Qed.

Lemma get_holiday_data_no_cache_file_witness :
  get_holiday_data (J := mem_json) (W := one_notice notice_2020)
    (u "2020") false None
  = (Err UnboundLocalError, None).
Proof.
  apply (get_holiday_data_no_cache_file (J := mem_json)
           (W := one_notice notice_2020) (u "2020") false
           (Some (u "https://www.gov.cn/notice.htm")) (u notice_2020)
           [(u "2020-01-19", u "2020-01-19", true);
            (u "2020-02-01", u "2020-02-01", true)]).
  - reflexivity.
  - reflexivity.
  - vm_compute. reflexivity.
  - discriminate.
Defined.



(** X6.  A year the cache holds is served from the file alone: whatever the
    web would answer, the call returns what the file holds for the year and
    leaves the file as it is. *)
Theorem cached_year_needs_no_web `{J : Json} (W1 W2 : Web)
    (fp : document) (d : dict) (year : str) :
  json_load fp = Ok (PDict d) ->
  is_None (dict_get year d) = false ->
  get_holiday_data (W := W1) year false (Some fp)
  = get_holiday_data (W := W2) year false (Some fp)
  /\ get_holiday_data (W := W1) year false (Some fp)
     = (Ok (dict_get year d), Some fp).
Proof.
  intros Hl Hn.
  rewrite (get_holiday_data_cached (W := W1) fp d year Hl Hn).
  rewrite (get_holiday_data_cached (W := W2) fp d year Hl Hn).
  split; reflexivity.
Qed.

Lemma cached_year_needs_no_web_witness :
  get_holiday_data (J := mem_json) (W := one_notice notice_2020)
    (u "2021") false (Some cache_2021)
  = get_holiday_data (J := mem_json) (W := one_notice notice_2019)
      (u "2021") false (Some cache_2021)
  /\ get_holiday_data (J := mem_json) (W := one_notice notice_2020)
       (u "2021") false (Some cache_2021)
     = (Ok (PList [PList [PStr (u "2021-02-07"); PStr (u "2021-02-07");
                          PBool true]]), Some cache_2021).
Proof.
  apply (cached_year_needs_no_web (J := mem_json)
           (one_notice notice_2020) (one_notice notice_2019) cache_2021
           [(u "2021", PList [PList [PStr (u "2021-02-07");
                                     PStr (u "2021-02-07"); PBool true]])]
           (u "2021")).
  - reflexivity.
  - reflexivity.
Defined.

(** C7.  When the year is looked up on the web (it is not in the cache, or
    a refresh is forced) and the notice parses to another year or to no line
    at all, [get_holiday_data] raises and the cache file stays as it was. *)
Theorem get_holiday_data_bad_parse `{J : Json} `{W : Web}
    (year : str) (force_refresh : bool) (fs : filesystem)
    (url : option str) (text parsed_year : str)
    (holiday_data : list interval) :
  is_None (cached year fs) || force_refresh = true ->
  search_notice_url year = Ok url ->
  fetch_text url = Ok text ->
  parse_holiday_text text = Ok (parsed_year, holiday_data) ->
  parsed_year <> year \/ holiday_data = [] ->
  get_holiday_data year force_refresh fs = (Err CannotParse, fs).
Proof.
  intros Hc Hs Hf Hp Hbad. unfold get_holiday_data, parse_holiday_info.
  assert (Hbad' : negb (str_eqb parsed_year year)
                  || Nat.eqb (length holiday_data) 0 = true).
  { destruct Hbad as [Hy | ->]; [|apply orb_true_r].
    destruct (str_eqb parsed_year year) eqn:E; [|reflexivity].
    apply str_eqb_eq in E. contradiction. }
  destruct fs as [fp|]; cbv beta iota zeta.
  - destruct (read_all_holiday_ok fp) as [d Hd].
    unfold cached in Hc. rewrite Hd in Hc. rewrite Hd.
    cbn [bind]. rewrite Hc, Hs. cbn [bind]. rewrite Hf. cbn [bind].
    rewrite Hp, Hbad'. reflexivity.
  - simpl. rewrite Hs. simpl. rewrite Hf. simpl. rewrite Hp, Hbad'.
    reflexivity.
Qed.

Lemma get_holiday_data_bad_parse_witness :
  get_holiday_data (J := mem_json) (W := one_notice notice_2019)
    (u "2020") false (Some cache_2021)
  = (Err CannotParse, Some cache_2021).
Proof.
  apply (get_holiday_data_bad_parse (J := mem_json)
           (W := one_notice notice_2019) (u "2020") false (Some cache_2021)
           (Some (u "https://www.gov.cn/notice.htm")) (u notice_2019)
           (u "2019")
           [(u "2019-02-02", u "2019-02-02", true);
            (u "2019-02-03", u "2019-02-03", true)]).
  - vm_compute. reflexivity.
  - reflexivity.
  - reflexivity.
  - vm_compute. reflexivity.
  - left. discriminate.
Defined.

(** C10.  A cache file that maps a year to the empty list answers
    [get_holiday_data] with that empty list, without a refresh and without a
    write; [is_holiday] on any date of that year then fails its assertion
    instead of falling back to the weekend rule. *)
Theorem empty_year_record `{J : Json} `{W : Web}
    (fp : document) (d : dict) (year : str) :
  json_load fp = Ok (PDict d) ->
  dict_get year d = PList [] ->
  get_holiday_data year false (Some fp) = (Ok (PList []), Some fp)
  /\ forall date_time t,
       as_datetime date_time = Ok t ->
       strftime_Y t = year ->
       is_holiday date_time (Some fp) = (Err AssertionError, Some fp).
Proof.
  intros Hl Hy.
  assert (G : get_holiday_data year false (Some fp) = (Ok (PList []), Some fp)).
  { rewrite (get_holiday_data_cached fp d year Hl); rewrite Hy; reflexivity. }
  split; [exact G|].
  intros date_time t Ht Hyear. unfold is_holiday.
  rewrite Ht, Hyear, G. reflexivity.
Qed.

Lemma empty_year_record_witness :
  get_holiday_data (J := mem_json) (W := one_notice notice_2020)
    (u "2020") false (Some cache_empty_2020)
  = (Ok (PList []), Some cache_empty_2020)
  /\ is_holiday (J := mem_json) (W := one_notice notice_2020)
       (ArgStr (u "2020-10-03")) (Some cache_empty_2020)
     = (Err AssertionError, Some cache_empty_2020).
Proof.
  destruct (empty_year_record (J := mem_json) (W := one_notice notice_2020)
              cache_empty_2020 [(u "2020", PList [])] (u "2020")
              eq_refl eq_refl) as [G H].
  split; [exact G|].
  apply (H (ArgStr (u "2020-10-03")) (DateTime 2020 10 3 0)).
  - vm_compute. reflexivity.
  - reflexivity.
Defined.

(** ** The classifier *)

Lemma interval_of_py_unpack3 (v : pyval) (i : interval) :
  interval_of_py v = Some i ->
  unpack3 v = Ok (PStr (fst (fst i)), PStr (snd (fst i)), PBool (snd i)).
Proof.
  intros H.
  destruct v as [| | | | |l|l|]; try discriminate;
    destruct l as [|[] [|[] [|[] [|? ?]]]]; try discriminate;
    inversion H; subst; reflexivity.
Qed.

(** On well-formed lines the loop of [is_holiday] stops at the first
    interval that contains the date. *)
Lemma scan_lines_find (t : datetime) :
  forall (lines : list pyval) (ivs : list interval),
    intervals_of_list lines = Some ivs ->
    Forall well_dated ivs ->
    scan_lines t lines
    = Ok (option_map (fun i => negb (snd i)) (find (covers t) ivs)).
Proof.
  induction lines as [|v lines IH]; intros ivs Hv Hw.
  - inversion Hv; subst. reflexivity.
  - cbn [intervals_of_list] in Hv.
    destruct (interval_of_py v) as [i|] eqn:Ei; [|discriminate].
    destruct (intervals_of_list lines) as [r|] eqn:Er; [|discriminate].
    inversion Hv; subst. inversion Hw as [|? ? Hi Hr]; subst.
    destruct Hi as (a & b & Ha & Hb).
    cbn [scan_lines find]. rewrite (interval_of_py_unpack3 _ _ Ei).
    cbn [bind strptime_py]. rewrite Ha. cbn [bind]. rewrite Hb. cbn [bind].
    unfold covers at 1. rewrite Ha, Hb.
    destruct (dt_leb a t && dt_leb t b).
    + cbn [truthy option_map]. reflexivity.
    + apply IH; auto.
Qed.

Lemma is_holiday_scan `{J : Json} `{W : Web} (fp : document) (d : dict)
    (date_time : date_arg) (t : datetime) (lines : list pyval)
    (ivs : list interval) :
  as_datetime date_time = Ok t ->
  json_load fp = Ok (PDict d) ->
  dict_get (strftime_Y t) d = PList lines ->
  intervals_of_list lines = Some ivs ->
  ivs <> [] ->
  Forall well_dated ivs ->
  is_holiday date_time (Some fp)
  = (Ok (match find (covers t) ivs with
         | Some i => negb (snd i)
         | None => is_weekend t
         end), Some fp).
Proof.
  intros Ht Hl Hy Hv Hne Hw. unfold is_holiday. rewrite Ht.
  rewrite (get_holiday_data_cached fp d _ Hl); rewrite Hy; [|reflexivity].
  destruct lines as [|v lines].
  - inversion Hv; subst. congruence.
  - rewrite (scan_lines_find t _ _ Hv Hw). cbn [bind].
    destruct (find (covers t) ivs); reflexivity.
Qed.

(** *** Days and the comparison of [datetime] *)

Lemma mk_datetime_midnight (y m d : Z) (t : datetime) :
  mk_datetime y m d = Ok t -> dt_time t = 0.
Proof.
  unfold mk_datetime.
  destruct ((1 <=? y) && (y <=? 9999) && (1 <=? m) && (m <=? 12)
            && (1 <=? d) && (d <=? days_in_month y m));
    intros H; inversion H; reflexivity.
Qed.

(** A date read by [strptime] is read at midnight. *)
Lemma strptime_midnight (s : str) (fmt : list directive) (t : datetime) :
  strptime s fmt = Ok t -> dt_time t = 0.
Proof.
  unfold strptime.
  destruct (match_at (format_regex fmt) (Cursor [] s)) as [[c' m]|];
    [|discriminate].
  destruct (after c'); [|discriminate].
  destruct (m_group 1 m); [|discriminate].
  destruct (m_group 2 m); [|discriminate].
  destruct (m_group 3 m); [|discriminate].
  apply mk_datetime_midnight.
Qed.

(** [a <= b] on datetimes puts the day of [a] on or before the day of
    [b]. *)
Lemma dt_leb_day_le (a b : datetime) : dt_leb a b = true -> day_le a b.
Proof.
  unfold dt_leb, dt_compare, day_le.
  destruct (Z.compare_spec (dt_year a) (dt_year b)); try discriminate;
    [|lia].
  destruct (Z.compare_spec (dt_month a) (dt_month b)); try discriminate;
    [|lia].
  destruct (Z.compare_spec (dt_day a) (dt_day b)); try discriminate; lia.
Qed.

(** The converse needs the times of day in order too. *)
Lemma day_le_dt_leb (a b : datetime) :
  day_le a b -> dt_time a <= dt_time b -> dt_leb a b = true.
Proof.
  unfold dt_leb, dt_compare, day_le. intros H T.
  destruct (Z.compare_spec (dt_year a) (dt_year b)); try reflexivity;
    [|lia].
  destruct (Z.compare_spec (dt_month a) (dt_month b)); try reflexivity;
    [|lia].
  destruct (Z.compare_spec (dt_day a) (dt_day b)); try reflexivity; [|lia].
  destruct (Z.compare_spec (dt_time a) (dt_time b)); try reflexivity; lia.
Qed.

(** An interval the loop takes holds the day. *)
Lemma covers_holds_day (t : datetime) (i : interval) :
  covers t i = true -> holds_day i t.
Proof.
  unfold covers, holds_day.
  destruct (strptime (fst (fst i)) fmt_iso) as [a|]; [|discriminate].
  destruct (strptime (snd (fst i)) fmt_iso) as [b|]; [|discriminate].
  intros H. apply andb_true_iff in H as [H1 H2].
  exists a, b. auto using dt_leb_day_le.
Qed.

(** At midnight the loop takes every interval that holds the day. *)
Lemma holds_day_covers (t : datetime) (i : interval) :
  dt_time t = 0 -> holds_day i t -> covers t i = true.
Proof.
  intros T (a & b & Ha & Hb & L1 & L2). unfold covers. rewrite Ha, Hb.
  apply strptime_midnight in Ha, Hb.
  rewrite (day_le_dt_leb a t L1), (day_le_dt_leb t b L2); [reflexivity|lia|lia].
Qed.

(** X5.  For a date given as a string, or as a [datetime] at midnight: when
    the cache holds the year of the date as a list whose first lines are
    well-formed intervals that do not hold the day, followed by one that
    does, [is_holiday] returns the negation of the [is_workday] flag of that
    interval, whatever comes after it in the list. *)
Theorem is_holiday_first_interval `{J : Json} `{W : Web}
    (fp : document) (d : dict) (date_time : date_arg) (t : datetime)
    (lines later : list pyval) (ivs : list interval) (v : pyval)
    (i : interval) :
  as_datetime date_time = Ok t ->
  dt_time t = 0 ->
  json_load fp = Ok (PDict d) ->
  dict_get (strftime_Y t) d = PList (lines ++ v :: later) ->
  intervals_of_list lines = Some ivs ->
  Forall well_dated ivs ->
  Forall (fun j => ~ holds_day j t) ivs ->
  interval_of_py v = Some i ->
  holds_day i t ->
  is_holiday date_time (Some fp) = (Ok (negb (snd i)), Some fp).
Proof.
  intros Ht T Hl Hy Hv Hw Hn Hi Hh. unfold is_holiday. rewrite Ht.
  rewrite (get_holiday_data_cached fp d _ Hl); rewrite Hy;
    [|destruct lines; reflexivity].
  assert (S : scan_lines t (lines ++ v :: later) = Ok (Some (negb (snd i)))).
  { clear Hy. revert ivs Hv Hw Hn.
    induction lines as [|x lines IH]; intros ivs Hv Hw Hn.
    - cbn [app scan_lines]. rewrite (interval_of_py_unpack3 _ _ Hi).
      cbn [bind strptime_py].
      pose proof (holds_day_covers t i T Hh) as C. unfold covers in C.
      destruct (strptime (fst (fst i)) fmt_iso) as [a|]; [|discriminate].
      destruct (strptime (snd (fst i)) fmt_iso) as [b|]; [|discriminate].
      cbn [bind]. rewrite C. reflexivity.
    - cbn [intervals_of_list] in Hv.
      destruct (interval_of_py x) as [j|] eqn:Ej; [|discriminate].
      destruct (intervals_of_list lines) as [r|] eqn:Er; [|discriminate].
      inversion Hv; subst.
      inversion Hw as [|? ? (a & b & Ha & Hb) Hw']; subst.
      inversion Hn as [|? ? Hj Hn']; subst.
      cbn [app scan_lines]. rewrite (interval_of_py_unpack3 _ _ Ej).
      cbn [bind strptime_py]. rewrite Ha. cbn [bind]. rewrite Hb. cbn [bind].
      destruct (dt_leb a t && dt_leb t b) eqn:C.
      + exfalso. apply Hj. apply covers_holds_day. unfold covers.
        rewrite Ha, Hb. exact C.
      + apply (IH r); auto. }
  destruct (lines ++ v :: later) as [|x l] eqn:E.
  - destruct lines; discriminate.
  - rewrite S. reflexivity.
Qed.

(** The 5th of October 2020 in a list that has the workday of the 3rd
    before the holiday of the 1st to the 8th. *)
Lemma is_holiday_first_interval_witness :
  is_holiday (J := mem_json) (W := one_notice notice_2020)
    (ArgStr (u "2020-10-05"))
    (Some (Written (PDict [(u "2020",
                            PList (map py_of_interval_list
                                     (rev overlap_2020)))])))
  = (Ok true,
     Some (Written (PDict [(u "2020",
                            PList (map py_of_interval_list
                                     (rev overlap_2020)))]))).
Proof.
  apply (is_holiday_first_interval (J := mem_json)
           (W := one_notice notice_2020)
           (Written (PDict [(u "2020",
                             PList (map py_of_interval_list
                                      (rev overlap_2020)))]))
           [(u "2020", PList (map py_of_interval_list (rev overlap_2020)))]
           (ArgStr (u "2020-10-05")) (DateTime 2020 10 5 0)
           [py_of_interval_list (u "2020-10-03", u "2020-10-03", true)] []
           [(u "2020-10-03", u "2020-10-03", true)]
           (py_of_interval_list (u "2020-10-01", u "2020-10-08", false))
           (u "2020-10-01", u "2020-10-08", false)).
  - vm_compute. reflexivity.
  - reflexivity.
  - reflexivity.
  - reflexivity.
  - reflexivity.
  - repeat constructor;
      (eexists; eexists; split; vm_compute; reflexivity).
  - repeat constructor;
      (intros (a & b & Ha & Hb & L1 & L2);
       vm_compute in Ha; vm_compute in Hb;
       inversion Ha; inversion Hb; subst;
       unfold day_le in L1, L2; cbn in L1, L2; lia).
  - reflexivity.
  - exists (DateTime 2020 10 1 0), (DateTime 2020 10 8 0).
    repeat split; try (vm_compute; reflexivity); unfold day_le; cbn; lia.
Defined.

(** C5 (the code departs from the claim).  The October holiday of 2020 is
    cached as the interval from 2020-10-01 to 2020-10-08, not a workday, and
    its inclusive range holds the 8th of October.  Asked about that day with
    a [datetime] at noon, [is_holiday] answers [False]: the loop compares
    the time of day with the midnight of the interval's last day, passes the
    interval over and falls back to the weekday, a Thursday.  Asked about
    the same day with the string "2020-10-08", it answers [True]. *)
Theorem is_holiday_time_of_day :
  holds_day (u "2020-10-01", u "2020-10-08", false)
            (DateTime 2020 10 8 noon)
  /\ is_holiday (J := mem_json) (W := one_notice notice_2020)
       (ArgDatetime (DateTime 2020 10 8 noon)) (Some cache_october_2020)
     = (Ok false, Some cache_october_2020)
  /\ is_holiday (J := mem_json) (W := one_notice notice_2020)
       (ArgStr (u "2020-10-08")) (Some cache_october_2020)
     = (Ok true, Some cache_october_2020).
Proof.
  split; [|split; vm_compute; reflexivity].
  exists (DateTime 2020 10 1 0), (DateTime 2020 10 8 0).
  repeat split; try (vm_compute; reflexivity); unfold day_le; cbn; lia.
Qed.

(** C6 (amended).  When the cache holds the year of the date as a non-empty
    list of well-formed intervals and the inclusive range of none of them
    holds the day, [is_holiday] returns [true] exactly on a Saturday or a
    Sunday, and [false] from Monday to Friday. *)
Theorem is_holiday_weekend_rule `{J : Json} `{W : Web}
    (fp : document) (d : dict) (date_time : date_arg) (t : datetime)
    (lines : list pyval) (ivs : list interval) :
  as_datetime date_time = Ok t ->
  json_load fp = Ok (PDict d) ->
  dict_get (strftime_Y t) d = PList lines ->
  intervals_of_list lines = Some ivs ->
  ivs <> [] ->
  Forall well_dated ivs ->
  Forall (fun i => ~ holds_day i t) ivs ->
  exists b,
    is_holiday date_time (Some fp) = (Ok b, Some fp)
    /\ (b = true <-> weekday t = 5 \/ weekday t = 6)
    /\ (b = false <-> 0 <= weekday t <= 4).
Proof.
  intros Ht Hl Hy Hv Hne Hw Hc.
  exists (is_weekend t).
  rewrite (is_holiday_scan fp d date_time t lines ivs Ht Hl Hy Hv); auto.
  assert (Hf : find (covers t) ivs = None).
  { clear - Hc. induction Hc as [|i l Hi _ IH]; [reflexivity|].
    cbn [find]. destruct (covers t i) eqn:C; [|exact IH].
    exfalso. apply Hi. apply covers_holds_day. exact C. }
  rewrite Hf. split; [reflexivity|].
  unfold is_weekend.
  assert (B : 0 <= weekday t < 7) by (unfold weekday; apply Z.mod_pos_bound; lia).
  split.
  - rewrite orb_true_iff, !Z.eqb_eq. reflexivity.
  - rewrite orb_false_iff, !Z.eqb_neq. lia.
Qed.

(** C6 as stated fails: the 3rd of October 2020 is a Saturday and no cached
    interval of 2020 contains it, the year being cached with no interval at
    all; [is_holiday] fails its assertion instead of returning [True]. *)
Lemma weekend_rule_needs_intervals :
  weekday (DateTime 2020 10 3 0) = 5
  /\ cached (H := mem_json) (u "2020") (Some cache_empty_2020) = PList []
  /\ is_holiday (J := mem_json) (W := one_notice notice_2020)
       (ArgStr (u "2020-10-03")) (Some cache_empty_2020)
     = (Err AssertionError, Some cache_empty_2020).
Proof. repeat split; vm_compute; reflexivity. Qed.

(** ** The round trip through the file *)

Lemma interval_of_py_image (v : pyval) (i : interval) :
  interval_of_py v = Some i -> interval_of_py (json_image v) = Some i.
Proof.
  intros H.
  destruct v as [| | | | |l|l|]; try discriminate;
    destruct l as [|[] [|[] [|[] [|? ?]]]]; try discriminate;
    inversion H; subst; reflexivity.
Qed.

Lemma intervals_of_list_image (l : list pyval) (ivs : list interval) :
  intervals_of_list l = Some ivs ->
  intervals_of_list (map json_image l) = Some ivs.
Proof.
  revert ivs. induction l as [|v l IH]; intros ivs H; [exact H|].
  cbn [intervals_of_list map] in *.
  destruct (interval_of_py v) as [i|] eqn:Ei; [|discriminate].
  destruct (intervals_of_list l) as [r|] eqn:Er; [|discriminate].
  rewrite (interval_of_py_image _ _ Ei), (IH r eq_refl). exact H.
Qed.

Lemma store_of_py_image (d : dict) (s : HolidayStore) :
  store_of_py d = Some s -> store_of_py (dict_image d) = Some s.
Proof.
  revert s. induction d as [|[y v] d IH]; intros s H; [exact H|].
  cbn [store_of_py dict_image map fst snd] in *.
  destruct (intervals_of_py v) as [l|] eqn:El; [|discriminate].
  destruct (store_of_py d) as [r|] eqn:Er; [|discriminate].
  fold (dict_image d). rewrite (IH r eq_refl).
  destruct v; try discriminate. cbn [json_image intervals_of_py] in *.
  rewrite (intervals_of_list_image _ _ El). exact H.
Qed.

(** Every store is the reading of the values the module holds for it. *)
Lemma store_of_py_of_store (s : HolidayStore) :
  store_of_py (py_of_store s) = Some s.
Proof.
  induction s as [|[y l] s IH]; [reflexivity|].
  cbn [py_of_store map store_of_py fst snd]. fold (py_of_store s).
  rewrite IH.
  assert (E : intervals_of_py (py_of_intervals l) = Some l).
  { clear. unfold py_of_intervals. cbn [intervals_of_py].
    induction l as [|[[a b] w] l IH]; [reflexivity|].
    cbn [map intervals_of_list py_of_interval interval_of_py].
    rewrite IH. reflexivity. }
  rewrite E. reflexivity.
Qed.

(** ** The round trip through the text *)

Ltac eval_text :=
  repeat match goal with
         | |- context [u ?s] =>
             let v := eval vm_compute in (u s) in change (u s) with v
         | |- context [ch ?s] =>
             let v := eval vm_compute in (ch s) in change (ch s) with v
         end.

Ltac jstep :=
  match goal with
  | |- context [is_json_space ?c] => closed_bool (is_json_space c)
  | |- context [N.eqb ?a ?b] => closed_bool (N.eqb a b)
  end.

Ltac jsimpl := repeat (jstep; cbv iota).

Lemma opens_cases (c : char) :
  opens c = true ->
  c = 34%N \/ c = 91%N \/ c = 123%N \/ c = 110%N \/ c = 116%N \/ c = 102%N.
Proof.
  unfold opens. rewrite !orb_true_iff, !N.eqb_eq. tauto.
Qed.

Lemma skip_space_opens (c : char) (t : str) :
  opens c = true -> skip_space (c :: t) = c :: t.
Proof.
  intros H. apply opens_cases in H.
  destruct H as [->|[->|[->|[->|[->| ->]]]]]; reflexivity.
Qed.

Lemma skip_space_indent (n : nat) (s : str) :
  skip_space (newline_indent n ++ s) = skip_space s.
Proof.
  unfold newline_indent. cbn [app skip_space].
    jsimpl.
  induction (2 * n)%nat as [|k IH]; [reflexivity|].
  cbn [repeat app skip_space]. jsimpl. exact IH.
Qed.

Lemma control_cases (c : char) :
  (c <? 32)%N = true -> In c (map N.of_nat (seq 0 32)).
Proof.
  intros H. apply N.ltb_lt in H.
  rewrite <- (N2Nat.id c). apply in_map. apply in_seq. lia.
Qed.

(** Every character comes back from its escape. *)
Lemma scanstring_escape_char (c : char) (acc r : str) :
  scanstring acc (escape_char c ++ r) = scanstring (c :: acc) r.
Proof.
  unfold escape_char.
  repeat match goal with
         | |- context [(c =? ?k)%N] =>
             destruct (N.eqb_spec c k) as [->|?]; [reflexivity|]
         end.
  destruct (c <? 32)%N eqn:E.
  - apply control_cases in E. cbv in E.
    repeat (destruct E as [<-|E]; [first [reflexivity | congruence]|]).
    destruct E.
  - cbn [app scanstring].
    destruct (N.eqb_spec c 34) as [|_]; [congruence|].
    destruct (N.eqb_spec c 92) as [|_]; [congruence|].
    apply N.ltb_ge in E.
    destruct (N.leb_spec c 31) as [L|_]; [lia|]. reflexivity.
Qed.

Lemma scanstring_escape (s : str) :
  forall (acc r : str),
    scanstring acc (flat_map escape_char s ++ c_quote :: r)
    = Ok (rev acc ++ s, r).
Proof.
  induction s as [|c s IH]; intros acc r.
  - cbn. rewrite app_nil_r. reflexivity.
  - cbn [flat_map]. rewrite <- app_assoc, scanstring_escape_char, IH.
    cbn [rev]. rewrite <- app_assoc. reflexivity.
Qed.

(** A string is read back from its text. *)
Lemma scanstring_encode (s r : str) :
  exists t, encode_basestring s ++ r = c_quote :: t
            /\ scanstring [] t = Ok (s, r).
Proof.
  unfold encode_basestring. eexists. split.
  - cbn [app]. rewrite <- app_assoc. reflexivity.
  - cbn [app]. apply scanstring_escape.
Qed.

Lemma join_cons (sep x y : str) (l : list str) :
  join sep (x :: y :: l) = x ++ sep ++ join sep (y :: l).
Proof. cbn [join flat_map]. rewrite <- app_assoc. reflexivity. Qed.

Lemma join_length (sep : str) (l : list str) :
  Forall (fun x => x <> []) l -> (length l <= length (join sep l))%nat.
Proof.
  induction l as [|x l IH]; intros H; [cbn; lia|].
  inversion H as [|? ? Hx Hl]; subst.
  destruct l as [|y l].
  - cbn [join flat_map]. rewrite app_nil_r. destruct x; [congruence|cbn; lia].
  - rewrite join_cons, !length_app. specialize (IH Hl).
    destruct x; [congruence|]. cbn [length] in *. lia.
Qed.

Lemma distinct_fresh (k : str) (a b : list str) :
  distinct (a ++ k :: b) = true -> existsb (str_eqb k) a = false.
Proof.
  induction a as [|x a IH]; intros H; [reflexivity|].
  cbn [app distinct] in H. apply andb_true_iff in H as [Hx Ha].
  cbn [existsb]. rewrite (IH Ha), orb_false_r.
  apply negb_true_iff in Hx. rewrite existsb_app in Hx.
  apply orb_false_iff in Hx as [_ Hx]. cbn [existsb] in Hx.
  apply orb_false_iff in Hx as [Hx _].
  destruct (str_eqb k x) eqn:E; [|reflexivity].
  apply str_eqb_eq in E. subst. rewrite str_eqb_refl in Hx. discriminate.
Qed.

Lemma dict_set_fresh (k : str) (v : pyval) (d : dict) :
  existsb (str_eqb k) (map fst d) = false -> dict_set k v d = d ++ [(k, v)].
Proof.
  induction d as [|[k' v'] d IH]; intros H; [reflexivity|].
  cbn [map fst existsb] in H. apply orb_false_iff in H as [Hk Hd].
  cbn [dict_set app]. rewrite Hk, (IH Hd). reflexivity.
Qed.

Lemma array_items_unfold scan n acc s :
  array_items scan n acc s
  = ('(v, r) <- scan s ;;
     match skip_space r with
     | c :: t =>
       if (c =? 93)%N then Ok (PList (rev (v :: acc)), t)
       else if (c =? 44)%N then
         match n with
         | O => Err ValueError
         | S n' => array_items scan n' (v :: acc) (skip_space t)
         end
       else Err ValueError
     | [] => Err ValueError
     end).
Proof. destruct n; reflexivity. Qed.

Lemma object_items_unfold scan n d s :
  object_items scan n d s
  = match s with
    | q :: t =>
      if (q =? 34)%N then
        '(k, r) <- scanstring [] t ;;
        match skip_space r with
        | c :: r1 =>
          if (c =? 58)%N then
            '(v, r2) <- scan (skip_space r1) ;;
            let d := dict_set k v d in
            match skip_space r2 with
            | c2 :: r3 =>
              if (c2 =? 125)%N then Ok (PDict d, r3)
              else if (c2 =? 44)%N then
                match n with
                | O => Err ValueError
                | S n' => object_items scan n' d (skip_space r3)
                end
              else Err ValueError
            | [] => Err ValueError
            end
          else Err ValueError
        | [] => Err ValueError
        end
      else Err ValueError
    | [] => Err ValueError
    end.
Proof. destruct n; reflexivity. Qed.

Section Scanner.
Variable fr : Z -> str.
Variable scan : str -> result (pyval * str).
Variable level : nat.

Lemma array_items_join (outer : nat) (rest : str) :
  forall (l : list pyval) (acc : list pyval) (n : nat),
    l <> [] ->
    Forall (reads_back fr scan level) l ->
    (length l <= S n)%nat ->
    array_items scan n acc
      (join (u "," ++ newline_indent level) (map (iterencode fr level) l)
       ++ newline_indent outer ++ u "]" ++ rest)
    = Ok (PList (rev acc ++ map json_image l), rest).
Proof.
  eval_text. cbn [app].
  induction l as [|x l IH]; intros acc n Hne Hl Hn; [congruence|].
  inversion Hl as [|? ? [Hx _] Hl']; subst.
  rewrite array_items_unfold.
  destruct l as [|y l].
  - cbn [map join flat_map]. rewrite app_nil_r, Hx. cbn [bind].
    rewrite skip_space_indent. cbn [skip_space]. jsimpl.
    cbn [rev]. reflexivity.
  - cbn [map]. rewrite join_cons, <- !app_assoc, Hx. cbn [bind app skip_space].
    jsimpl.
    cbn [length] in Hn. destruct n as [|n]; [lia|].
    rewrite skip_space_indent.
    inversion Hl' as [|? ? [_ (c & t & Ey & Hc)] _]; subst.
    assert (E : forall tail,
              skip_space (join (44%N :: newline_indent level)
                            (map (iterencode fr level) (y :: l)) ++ tail)
              = join (44%N :: newline_indent level)
                  (map (iterencode fr level) (y :: l)) ++ tail).
    { intros tail. cbn [map join]. rewrite Ey. cbn [app].
      apply skip_space_opens. exact Hc. }
    change (iterencode fr level y :: map (iterencode fr level) l)
      with (map (iterencode fr level) (y :: l)).
    rewrite E, IH; [|discriminate|exact Hl'|cbn [length] in *; lia].
    cbn [rev map]. rewrite <- app_assoc. reflexivity.
Qed.

Lemma object_items_join (outer : nat) (rest : str) :
  forall (d : dict) (d0 : dict) (n : nat),
    d <> [] ->
    Forall (fun kv => reads_back fr scan level (snd kv)) d ->
    distinct (map fst d0 ++ map fst d) = true ->
    (length d <= S n)%nat ->
    object_items scan n d0
      (join (u "," ++ newline_indent level) (map (entry fr level) d)
       ++ newline_indent outer ++ u "}" ++ rest)
    = Ok (PDict (d0 ++ dict_image d), rest).
Proof.
  eval_text. cbn [app].
  induction d as [|[k v] d IH]; intros d0 n Hne Hd Hk Hn; [congruence|].
  inversion Hd as [|? ? [Hv (c & t & Ev & Hc)] Hd']; subst.
  cbn [snd] in *.
  assert (Hset : dict_set k (json_image v) d0 = d0 ++ [(k, json_image v)]).
  { apply dict_set_fresh. cbn [map fst] in Hk.
    apply (distinct_fresh k _ _ Hk). }
  assert (step : forall tail,
    object_items scan n d0 (entry fr level (k, v) ++ tail)
    = match skip_space tail with
      | c2 :: r3 =>
        if (c2 =? 125)%N then Ok (PDict (d0 ++ [(k, json_image v)]), r3)
        else if (c2 =? 44)%N then
          match n with
          | O => Err ValueError
          | S n' => object_items scan n' (d0 ++ [(k, json_image v)])
                                 (skip_space r3)
          end
        else Err ValueError
      | [] => Err ValueError
      end).
  { intros tail. unfold entry. cbn [fst snd].
    rewrite <- !app_assoc.
    destruct (scanstring_encode k (u ": " ++ iterencode fr level v ++ tail))
      as (t' & E1 & E2).
    rewrite E1, object_items_unfold. jsimpl.
    rewrite E2. cbn [bind]. eval_text. cbn [app skip_space]. jsimpl.
    cbn [skip_space]. jsimpl.
    rewrite Ev. cbn [app]. rewrite (skip_space_opens _ _ Hc).
    change (c :: t ++ tail) with ((c :: t) ++ tail). rewrite <- Ev.
    rewrite Hv. cbn [bind]. rewrite Hset. reflexivity. }
  destruct d as [|[k' v'] d].
  - cbn [map join flat_map]. rewrite app_nil_r, step.
    rewrite skip_space_indent. cbn [skip_space]. jsimpl. reflexivity.
  - cbn [map]. rewrite join_cons, <- !app_assoc, step.
    cbn [app skip_space]. jsimpl.
    cbn [length] in Hn. destruct n as [|n]; [lia|].
    rewrite skip_space_indent.
    assert (E : forall tail,
              skip_space (join (44%N :: newline_indent level)
                            (map (entry fr level) ((k', v') :: d)) ++ tail)
              = join (44%N :: newline_indent level)
                  (map (entry fr level) ((k', v') :: d)) ++ tail).
    { intros tail. cbn [map join]. unfold entry at 1 3, encode_basestring.
      cbn [fst app]. reflexivity. }
    change (entry fr level (k', v') :: map (entry fr level) d)
      with (map (entry fr level) ((k', v') :: d)).
    rewrite E, IH; [|discriminate|exact Hd'| |cbn [length] in *; lia].
    + cbn [dict_image map fst snd]. rewrite <- app_assoc. reflexivity.
    + rewrite map_app. cbn [map fst]. rewrite <- app_assoc. exact Hk.
Qed.

End Scanner.

Section RoundTrip.
Variable fr : Z -> str.
Variable fl : str -> Z.
Variable imax : nat.

Lemma scan_once_unfold (limit : nat) (s : str) :
  scan_once fl imax limit s
  = match s with
    | [] => Err ValueError
    | c :: t =>
      if (c =? 34)%N then '(x, r) <- scanstring [] t ;; Ok (PStr x, r)
      else if (c =? 123)%N then
        match limit with
        | O => Err RecursionError
        | S limit' => parse_object (scan_once fl imax limit') t
        end
      else if (c =? 91)%N then
        match limit with
        | O => Err RecursionError
        | S limit' => parse_array (scan_once fl imax limit') t
        end
      else
        match constant s with
        | Some r => Ok r
        | None => match_number fl imax s
        end
    end.
Proof. destruct limit; reflexivity. Qed.

Lemma iterencode_opens (level : nat) (v : pyval) :
  plain v = true ->
  exists c t, iterencode fr level v = c :: t /\ opens c = true.
Proof.
  destruct v as [|[|]| | |s|l|l|d]; intros H; try discriminate;
    cbn [iterencode]; try (destruct l); try (destruct d);
    unfold encode_basestring; eval_text; cbn [app];
    eexists; eexists; (split; [reflexivity|reflexivity]).
Qed.

Lemma join_opens (level : nat) (sep : str) (l : list pyval) (tail : str) :
  l <> [] -> forallb plain l = true ->
  exists c t, join sep (map (iterencode fr level) l) ++ tail = c :: t
              /\ opens c = true.
Proof.
  intros Hne Hp. destruct l as [|x l]; [congruence|].
  cbn [forallb] in Hp. apply andb_true_iff in Hp as [Hx _].
  destruct (iterencode_opens level x Hx) as (c & t & E & Hc).
  cbn [map join]. rewrite E. cbn [app]. eauto.
Qed.

(** What the scanner reads back at one limit, it reads back in the items of
    a list. *)
Lemma reads_back_items (limit level : nat) (l : list pyval) :
  (forall v level rest, plain v = true -> (depth v <= limit)%nat ->
     scan_once fl imax limit (iterencode fr level v ++ rest)
     = Ok (json_image v, rest)) ->
  forallb plain l = true ->
  (list_max (map depth l) <= limit)%nat ->
  Forall (reads_back fr (scan_once fl imax limit) level) l.
Proof.
  intros IH Hp Hd. apply list_max_le in Hd.
  rewrite Forall_map in Hd. rewrite forallb_forall in Hp.
  rewrite Forall_forall in *. intros x Hx. split.
  - intros r. apply IH; auto.
  - apply iterencode_opens; auto.
Qed.

Lemma scan_once_scalar (limit level : nat) (v : pyval) (rest : str) :
  plain v = true -> depth v = 0%nat ->
  scan_once fl imax limit (iterencode fr level v ++ rest)
  = Ok (json_image v, rest).
Proof.
  intros Hp Hd. rewrite scan_once_unfold.
  destruct v as [|[|]| | |s|l|l|d]; try discriminate;
    cbn [iterencode json_image].
  - reflexivity.
  - reflexivity.
  - reflexivity.
  - unfold encode_basestring. cbn [app]. jsimpl.
    rewrite <- app_assoc. cbn [app]. rewrite scanstring_escape.
    reflexivity.
Qed.

Lemma scan_once_array (limit level : nat) (l : list pyval) (rest : str) :
  (forall v level rest, plain v = true -> (depth v <= limit)%nat ->
     scan_once fl imax limit (iterencode fr level v ++ rest)
     = Ok (json_image v, rest)) ->
  forallb plain l = true ->
  (list_max (map depth l) <= limit)%nat ->
  scan_once fl imax (S limit) (iterencode fr level (PList l) ++ rest)
  = Ok (PList (map json_image l), rest).
Proof.
  intros IH Hp Hd. rewrite scan_once_unfold. cbn [iterencode].
  destruct l as [|x l]; [reflexivity|].
  rewrite <- !app_assoc.
  change (u "[" ++ ?t) with (91%N :: t). cbv beta. jsimpl.
  unfold parse_array. rewrite skip_space_indent.
  destruct (join_opens (S level) (u "," ++ newline_indent (S level))
              (x :: l) (newline_indent level ++ u "]" ++ rest))
    as (c & t & E & Hc); [discriminate|exact Hp|].
  rewrite E, (skip_space_opens _ _ Hc).
  assert (B : (c =? 93)%N = false).
  { apply opens_cases in Hc.
    destruct Hc as [->|[->|[->|[->|[->| ->]]]]]; reflexivity. }
  rewrite B, <- E.
  apply (array_items_join fr (scan_once fl imax limit) (S level) level rest
           (x :: l) []); [discriminate| |].
  - apply reads_back_items; auto.
  - pose proof (join_length (u "," ++ newline_indent (S level))
                  (map (iterencode fr (S level)) (x :: l))) as L.
    rewrite length_map in L.
    assert (Forall (fun s => s <> []) (map (iterencode fr (S level)) (x :: l))).
    { rewrite Forall_map, Forall_forall. intros y Hy.
      rewrite forallb_forall in Hp.
      destruct (iterencode_opens (S level) y (Hp y Hy)) as (c' & t' & E' & _).
      rewrite E'. discriminate. }
    specialize (L H). rewrite !length_app. lia.
Qed.

Lemma scan_once_object (limit level : nat) (d : dict) (rest : str) :
  (forall v level rest, plain v = true -> (depth v <= limit)%nat ->
     scan_once fl imax limit (iterencode fr level v ++ rest)
     = Ok (json_image v, rest)) ->
  distinct (map fst d) = true ->
  forallb (fun kv => plain (snd kv)) d = true ->
  (list_max (map (fun kv => depth (snd kv)) d) <= limit)%nat ->
  scan_once fl imax (S limit) (iterencode fr level (PDict d) ++ rest)
  = Ok (PDict (dict_image d), rest).
Proof.
  intros IH Hk Hp Hd. rewrite scan_once_unfold. cbn [iterencode].
  destruct d as [|[k x] d]; [reflexivity|].
  rewrite <- !app_assoc.
  change (u "{" ++ ?t) with (123%N :: t). cbv beta. jsimpl.
  unfold parse_object. rewrite skip_space_indent.
  change (map (fun kv : str * pyval =>
                 encode_basestring (fst kv) ++ u ": "
                 ++ iterencode fr (S level) (snd kv))
              ((k, x) :: d))
    with (map (entry fr (S level)) ((k, x) :: d)).
  assert (E : exists t,
            join (u "," ++ newline_indent (S level))
              (map (entry fr (S level)) ((k, x) :: d))
            ++ newline_indent level ++ u "}" ++ rest = c_quote :: t).
  { cbn [map join]. unfold entry at 1, encode_basestring.
    cbn [fst app]. eauto. }
  destruct E as (t & E). rewrite E. cbn [skip_space]. jsimpl.
  rewrite <- E.
  rewrite (object_items_join fr (scan_once fl imax limit) (S level) level rest
             ((k, x) :: d) []); [reflexivity|discriminate| |exact Hk|].
  - assert (F : Forall (reads_back fr (scan_once fl imax limit) (S level))
                  (map snd ((k, x) :: d))).
    { apply reads_back_items; auto.
      - rewrite forallb_forall in *. intros y Hy.
        apply in_map_iff in Hy as (kv & <- & Hy). auto.
      - rewrite map_map. exact Hd. }
    rewrite Forall_map in F. exact F.
  - pose proof (join_length (u "," ++ newline_indent (S level))
                  (map (entry fr (S level)) ((k, x) :: d))) as L.
    rewrite length_map in L.
    assert (Forall (fun s => s <> []) (map (entry fr (S level)) ((k, x) :: d))).
    { rewrite Forall_map, Forall_forall. intros y Hy.
      unfold entry, encode_basestring. discriminate. }
    specialize (L H). rewrite !length_app. lia.
Qed.

(** The scanner reads every plain value back from its text, at every indent
    level and whatever text follows, when it may enter as many containers
    as the value nests. *)
Lemma scan_once_iterencode :
  forall (limit : nat) (v : pyval) (level : nat) (rest : str),
    plain v = true -> (depth v <= limit)%nat ->
    scan_once fl imax limit (iterencode fr level v ++ rest)
    = Ok (json_image v, rest).
Proof.
  induction limit as [|limit IH]; intros v level rest Hp Hd.
  - apply scan_once_scalar; [exact Hp|lia].
  - destruct v as [|b| | |s|l|l|d]; try discriminate;
      try (apply scan_once_scalar; [exact Hp|reflexivity]);
      cbn [plain depth] in *.
    + apply scan_once_array; auto. lia.
    + apply (scan_once_array limit level l rest); auto. lia.
    + apply andb_true_iff in Hp as [Hk Hp].
      apply scan_once_object; auto. lia.
Qed.

(** [json.loads(json.dumps(v))] is [v], tuples read as lists. *)
Lemma json_loads_dumps (recursion_limit : nat) (v : pyval) :
  plain v = true -> (depth v <= recursion_limit)%nat ->
  json_loads fl recursion_limit imax (json_dumps fr v) = Ok (json_image v).
Proof.
  intros Hp Hd. unfold json_loads, json_dumps.
  destruct (iterencode_opens 0 v Hp) as (c & t & E & Hc).
  rewrite E.
  assert (B : (c =? 0xFEFF)%N = false).
  { apply opens_cases in Hc.
    destruct Hc as [->|[->|[->|[->|[->| ->]]]]]; reflexivity. }
  rewrite B, (skip_space_opens _ _ Hc), <- E.
  rewrite <- (app_nil_r (iterencode fr 0 v)).
  rewrite (scan_once_iterencode recursion_limit v 0 [] Hp Hd).
  reflexivity.
Qed.

End RoundTrip.

(** X9.  What [json.dump] writes, [json.load] reads back: every value made
    of [None], booleans, strings, lists, tuples and dicts (of distinct
    keys) that nests no deeper than the scanner may recurse is decoded from
    its text to itself, with its tuples as lists.  This holds for every
    string: the quote, the backslash and the control characters come back
    from their escapes. *)
Theorem json_round_trip (float_repr : Z -> str) (float_of_literal : str -> Z)
    (recursion_limit int_max_str_digits : nat) (v : pyval) :
  plain v = true ->
  (depth v <= recursion_limit)%nat ->
  json_load
    (Json := text_json float_repr float_of_literal recursion_limit
               int_max_str_digits)
    (json_dump
       (Json := text_json float_repr float_of_literal recursion_limit
                  int_max_str_digits) v)
  = Ok (json_image v).
Proof. intros Hp Hd. apply json_loads_dumps; assumption. Qed.

Lemma json_round_trip_witness :
  json_load (Json := sample_json)
    (json_dump (Json := sample_json)
       (PDict [(u "a b", PTuple [PStr [34; 92; 10; 1; 0x5E74]%N; PNone;
                                 PBool true; PList []; PDict []])]))
  = Ok (PDict [(u "a b", PList [PStr [34; 92; 10; 1; 0x5E74]%N; PNone;
                                PBool true; PList []; PDict []])]).
Proof.
  apply (json_round_trip (fun _ => u "0.0") (fun _ => 0) 1000 4300
           (PDict [(u "a b", PTuple [PStr [34; 92; 10; 1; 0x5E74]%N; PNone;
                                     PBool true; PList []; PDict []])])).
  - reflexivity.
  - vm_compute. lia.
Defined.

(** A store is a plain value that nests three deep. *)
Lemma interval_of_py_plain (v : pyval) (i : interval) :
  interval_of_py v = Some i -> plain v = true /\ depth v = 1%nat.
Proof.
  intros H.
  destruct v as [| | | | |l|l|]; try discriminate;
    destruct l as [|[] [|[] [|[] [|? ?]]]]; try discriminate;
    split; reflexivity.
Qed.

Lemma intervals_of_list_plain (l : list pyval) (ivs : list interval) :
  intervals_of_list l = Some ivs ->
  forallb plain l = true /\ (list_max (map depth l) <= 1)%nat.
Proof.
  revert ivs. induction l as [|v l IH]; intros ivs H;
    [split; [reflexivity | cbn; lia]|].
  cbn [intervals_of_list] in H.
  destruct (interval_of_py v) as [i|] eqn:Ei; [|discriminate].
  destruct (intervals_of_list l) as [r|] eqn:Er; [|discriminate].
  destruct (interval_of_py_plain _ _ Ei) as [Hp Hd].
  destruct (IH r eq_refl) as [Hp' Hd'].
  cbn [forallb map]. rewrite Hp, Hp', Hd. split; [reflexivity|].
  unfold list_max in *. cbn [fold_right]. lia.
Qed.

Lemma store_of_py_plain (d : dict) (s : HolidayStore) :
  store_of_py d = Some s ->
  forallb (fun kv => plain (snd kv)) d = true
  /\ (list_max (map (fun kv => depth (snd kv)) d) <= 2)%nat.
Proof.
  revert s. induction d as [|[y v] d IH]; intros s H;
    [split; [reflexivity | cbn; lia]|].
  cbn [store_of_py] in H.
  destruct (intervals_of_py v) as [l|] eqn:El; [|discriminate].
  destruct (store_of_py d) as [r|] eqn:Er; [|discriminate].
  destruct (IH r eq_refl) as [Hp Hd].
  destruct v; try discriminate. cbn [intervals_of_py] in El.
  destruct (intervals_of_list_plain _ _ El) as [Hp' Hd'].
  cbn [forallb map snd plain depth]. rewrite Hp, Hp'.
  split; [reflexivity|]. unfold list_max in *. cbn [fold_right]. lia.
Qed.

(** A value without tuples is its own image. *)
Lemma json_image_no_tuple :
  forall (n : nat) (v : pyval),
    (depth v <= n)%nat -> no_tuple v = true -> json_image v = v.
Proof.
  induction n as [|n IH]; intros v Hd Hn;
    destruct v as [| | | | |l|l|d]; try reflexivity; try discriminate;
    cbn [depth] in Hd; try lia; cbn [no_tuple] in Hn; cbn [json_image];
    f_equal.
  - rewrite <- (map_id l) at 2. apply map_ext_in. intros x Hx.
    apply IH.
    + assert (L : (list_max (map depth l) <= n)%nat) by lia.
      apply list_max_le in L. rewrite Forall_map, Forall_forall in L. auto.
    + rewrite forallb_forall in Hn. auto.
  - rewrite <- (map_id d) at 2. apply map_ext_in. intros [k x] Hx.
    cbn [fst snd]. f_equal. apply IH.
    + assert (L : (list_max (map (fun kv => depth (snd kv)) d) <= n)%nat) by lia.
      apply list_max_le in L. rewrite Forall_map, Forall_forall in L.
      apply (L (k, x)). exact Hx.
    + rewrite forallb_forall in Hn. apply (Hn (k, x)). exact Hx.
Qed.

(** C9 (amended).  Saving a store and reading the file again yields the
    store with every line as a list: the same years in the same order, and
    for every year the same [(start, end, is_workday)] triples in the same
    order.  The reloaded mapping is the original itself when the original
    holds no tuple.  The store is a mapping (its years are all different),
    its text can be written as UTF-8, and the interpreter lets the scanner
    enter three containers. *)
Theorem save_then_read (float_repr : Z -> str) (float_of_literal : str -> Z)
    (recursion_limit int_max_str_digits : nat)
    (s : HolidayStore) (all_holiday : dict) (fs : option str) :
  store_of_py all_holiday = Some s ->
  distinct (map fst all_holiday) = true ->
  utf8_text (json_dumps float_repr (PDict all_holiday)) = true ->
  (3 <= recursion_limit)%nat ->
  read_all_holiday
    (J := text_json float_repr float_of_literal recursion_limit
            int_max_str_digits)
    (save_all_holiday
       (J := text_json float_repr float_of_literal recursion_limit
               int_max_str_digits) all_holiday fs)
  = Ok (dict_image all_holiday)
  /\ store_of_py (dict_image all_holiday) = Some s
  /\ (no_tuple (PDict all_holiday) = true -> dict_image all_holiday = all_holiday).
Proof.
  intros Hs Hk _ Hl.
  destruct (store_of_py_plain _ _ Hs) as [Hp Hd].
  assert (P : plain (PDict all_holiday) = true).
  { cbn [plain]. rewrite Hk, Hp. reflexivity. }
  assert (D : (depth (PDict all_holiday) <= recursion_limit)%nat).
  { cbn [depth]. lia. }
  repeat split.
  - unfold save_all_holiday, read_all_holiday. cbn [json_load json_dump text_json].
    rewrite (json_loads_dumps _ _ _ _ _ P D). reflexivity.
  - apply store_of_py_image. exact Hs.
  - intros Hn.
    pose proof (json_image_no_tuple _ (PDict all_holiday) (Nat.le_refl _) Hn) as E.
    cbn [json_image] in E. inversion E as [E']. unfold dict_image.
    rewrite E'. rewrite E'. reflexivity.
Qed.

(** The store of two years, as it is read from the file. *)
Lemma save_then_read_witness :
  read_all_holiday (J := sample_json)
    (save_all_holiday (J := sample_json) (py_of_store_lists store_2020) None)
  = Ok (py_of_store_lists store_2020)
  /\ store_of_py (py_of_store_lists store_2020) = Some store_2020.
Proof.
  destruct (save_then_read (fun _ => u "0.0") (fun _ => 0) 1000 4300
              store_2020 (py_of_store_lists store_2020) None
              eq_refl eq_refl eq_refl) as (R & S & E).
  - vm_compute. lia.
  - rewrite (E eq_refl) in R, S. split; [exact R | exact S].
Defined.

(** C9 as stated fails: the parser builds the lines as tuples, and the
    store that is read back holds them as lists, which is not the store
    that was saved. *)
Lemma tuples_are_read_as_lists :
  read_all_holiday (J := sample_json)
    (save_all_holiday (J := sample_json) (py_of_store store_2020) None)
  = Ok (py_of_store_lists store_2020)
  /\ py_of_store_lists store_2020 <> py_of_store store_2020.
Proof. split; [vm_compute; reflexivity | vm_compute; discriminate]. Qed.

(** ** Compensating workdays *)

Lemma contains_app (c : char) (a b : str) :
  contains c (a ++ b) = contains c a || contains c b.
Proof. unfold contains. apply existsb_app. Qed.

Lemma digits_no (c : char) (s : str) :
  is_digit c = false -> all_digits s = true -> contains c s = false.
Proof.
  intros Hc. induction s as [|x s IH]; intros H; [reflexivity|].
  cbn [all_digits forallb] in H. apply andb_true_iff in H as [Hx Hs].
  cbn [contains existsb]. fold (contains c s). rewrite (IH Hs), orb_false_r.
  unfold char_eqb. apply N.eqb_neq. intros ->. congruence.
Qed.

Lemma index_first (c : char) (a b : str) :
  contains c a = false -> index c (a ++ c :: b) = Some (length a).
Proof.
  induction a as [|x a IH]; intros H; cbn [index app length].
  - unfold char_eqb. rewrite N.eqb_refl. reflexivity.
  - cbn [contains existsb] in H. apply orb_false_iff in H as [Hx Ha].
    rewrite Hx, (IH Ha). reflexivity.
Qed.

Lemma firstn_length_app {A} (a b : list A) :
  firstn (length a) (a ++ b) = a.
Proof.
  rewrite firstn_app, Nat.sub_diag, firstn_all. cbn. apply app_nil_r.
Qed.

(** The two [if]s on a mention with its year and month: nothing is added. *)
Lemma complete_year_month_day (year before y m d : str) :
  complete_workday year before (render (YearMonthDay y m d))
  = Ok (full_date (y, m, d)).
Proof.
  unfold complete_workday. cbn [render full_date].
  assert (Hm : contains c_month (y ++ [c_year] ++ m ++ [c_month] ++ d ++ [c_day])
               = true).
  { rewrite !contains_app. cbn. rewrite !orb_true_r. reflexivity. }
  assert (Hy : contains c_year (y ++ [c_year] ++ m ++ [c_month] ++ d ++ [c_day])
               = true).
  { rewrite !contains_app. cbn. rewrite !orb_true_r. reflexivity. }
  rewrite Hm. cbn [negb bind]. rewrite Hy. reflexivity.
Qed.

(** On a mention with its month and no year: the notice's year is put in
    front. *)
Lemma complete_month_day (year before m d : str) :
  all_digits m = true -> all_digits d = true ->
  complete_workday year before (render (MonthDay m d))
  = Ok (full_date (year, m, d)).
Proof.
  intros Dm Dd. unfold complete_workday. cbn [render full_date].
  assert (Hm : contains c_month (m ++ [c_month] ++ d ++ [c_day]) = true).
  { rewrite !contains_app. cbn. rewrite !orb_true_r. reflexivity. }
  assert (Hy : contains c_year (m ++ [c_month] ++ d ++ [c_day]) = false).
  { rewrite !contains_app, (digits_no c_year m), (digits_no c_year d); auto. }
  rewrite Hm. cbn [negb bind]. rewrite Hy. reflexivity.
Qed.

(** On a bare day: the text of the mention before, up to its month, is put
    in front, and with it the year of that mention. *)
Lemma complete_day_only (year py pm pd d : str) :
  all_digits py = true -> all_digits pm = true -> all_digits d = true ->
  complete_workday year (full_date (py, pm, pd)) (render (DayOnly d))
  = Ok (full_date (py, pm, d)).
Proof.
  intros Dy Dm Dd. unfold complete_workday. cbn [render full_date].
  assert (Hm : contains c_month (d ++ [c_day]) = false).
  { rewrite contains_app, (digits_no c_month d); auto. }
  rewrite Hm. cbn [negb].
  replace (py ++ [c_year] ++ pm ++ [c_month] ++ pd ++ [c_day])
    with ((py ++ [c_year] ++ pm) ++ c_month :: pd ++ [c_day])
    by (rewrite <- !app_assoc; reflexivity).
  rewrite index_first.
  2:{ rewrite !contains_app, (digits_no c_month py), (digits_no c_month pm);
      auto. }
  replace (length (py ++ [c_year] ++ pm) + 1)%nat
    with (length ((py ++ [c_year] ++ pm) ++ [c_month]))
    by (rewrite (length_app _ [c_month]); reflexivity).
  replace ((py ++ [c_year] ++ pm) ++ c_month :: pd ++ [c_day])
    with (((py ++ [c_year] ++ pm) ++ [c_month]) ++ pd ++ [c_day])
    by (rewrite <- !app_assoc; reflexivity).
  rewrite firstn_length_app. cbn [bind].
  assert (Hy : contains c_year
                 (((py ++ [c_year] ++ pm) ++ [c_month]) ++ d ++ [c_day]) = true).
  { rewrite !contains_app. cbn. rewrite !orb_true_r. reflexivity. }
  rewrite Hy. cbn [negb]. rewrite <- !app_assoc. reflexivity.
Qed.

(** The loop from a state in which [before_workday] is a completed date:
    every mention is completed by the rule of [resolve], turned into an ISO
    date, and appended as one line. *)
Lemma workday_loop_from (year : str) :
  all_digits year = true ->
  forall (ms : list mention) (py pm pd : str) (holiday_data : list interval),
    forallb mention_digits ms = true ->
    all_digits py = true -> all_digits pm = true ->
    ('(_, holiday_data) <-
       for_each (workday_body year) (full_date (py, pm, pd), holiday_data)
                (map render ms) ;;
     Ok holiday_data)
    = (days <- map_result to_iso (map full_date (resolve year (py, pm) ms)) ;;
       Ok (holiday_data ++ map workday_line days)).
Proof.
  intros Dyear. induction ms as [|x ms IH]; intros py pm pd hd Dms Dpy Dpm.
  - cbn. rewrite app_nil_r. reflexivity.
  - cbn [forallb] in Dms. apply andb_true_iff in Dms as [Dx Dms].
    cbn [map for_each]. unfold workday_body at 1.
    destruct x as [y m d | m d | d]; cbn [mention_digits] in Dx;
      cbn [resolve map map_result fst snd].
    + apply andb_true_iff in Dx as [Dx Dd].
      apply andb_true_iff in Dx as [Dy Dm].
      rewrite complete_year_month_day. cbn [bind]. unfold to_iso at 1.
      destruct (strptime (full_date (y, m, d)) fmt_cn) as [t|e]; cbn [bind];
        [|reflexivity].
      rewrite (IH y m d _ Dms Dy Dm).
      destruct (map_result to_iso _) as [days|e]; cbn [bind map];
        [|reflexivity].
      rewrite <- app_assoc. reflexivity.
    + apply andb_true_iff in Dx as [Dm Dd].
      rewrite (complete_month_day _ _ _ _ Dm Dd). cbn [bind].
      unfold to_iso at 1.
      destruct (strptime (full_date (year, m, d)) fmt_cn) as [t|e];
        cbn [bind]; [|reflexivity].
      rewrite (IH year m d _ Dms Dyear Dm).
      destruct (map_result to_iso _) as [days|e]; cbn [bind map];
        [|reflexivity].
      rewrite <- app_assoc. reflexivity.
    + rewrite (complete_day_only _ _ _ _ _ Dpy Dpm Dx). cbn [bind].
      unfold to_iso at 1.
      destruct (strptime (full_date (py, pm, d)) fmt_cn) as [t|e];
        cbn [bind]; [|reflexivity].
      rewrite (IH py pm d _ Dms Dpy Dpm).
      destruct (map_result to_iso _) as [days|e]; cbn [bind map];
        [|reflexivity].
      rewrite <- app_assoc. reflexivity.
Qed.

(** The whole loop, from [before_workday = ""], on a run whose first
    mention states its month. *)
Lemma workdays_loop_resolve (year : str) (holiday_data : list interval)
    (x : mention) (ms : list mention) :
  all_digits year = true ->
  forallb mention_digits (x :: ms) = true ->
  states_month x = true ->
  workdays_loop year holiday_data (map render (x :: ms))
  = (days <- map_result to_iso
               (map full_date (resolve year (year, []) (x :: ms))) ;;
     Ok (holiday_data ++ map workday_line days)).
Proof.
  intros Dyear Dms Hx. unfold workdays_loop.
  cbn [forallb] in Dms. apply andb_true_iff in Dms as [Dx Dms].
  cbn [map for_each]. unfold workday_body at 1.
  destruct x as [y m d | m d | d]; [| |discriminate];
    cbn [mention_digits] in Dx; cbn [resolve map map_result fst snd].
  - apply andb_true_iff in Dx as [Dx Dd].
    apply andb_true_iff in Dx as [Dy Dm].
    rewrite complete_year_month_day. cbn [bind]. unfold to_iso at 1.
    destruct (strptime (full_date (y, m, d)) fmt_cn) as [t|e]; cbn [bind];
      [|reflexivity].
    rewrite (workday_loop_from year Dyear ms y m d _ Dms Dy Dm).
    destruct (map_result to_iso _) as [days|e]; cbn [bind map];
      [|reflexivity].
    rewrite <- app_assoc. reflexivity.
  - apply andb_true_iff in Dx as [Dm Dd].
    rewrite (complete_month_day _ _ _ _ Dm Dd). cbn [bind].
    unfold to_iso at 1.
    destruct (strptime (full_date (year, m, d)) fmt_cn) as [t|e];
      cbn [bind]; [|reflexivity].
    rewrite (workday_loop_from year Dyear ms year m d _ Dms Dyear Dm).
    destruct (map_result to_iso _) as [days|e]; cbn [bind map];
      [|reflexivity].
    rewrite <- app_assoc. reflexivity.
Qed.

(** One line per mention: what the loop appends, when it returns. *)
Lemma for_each_workday_body (year : str) :
  forall (workdays : list str) (before : str) (hd : list interval) st,
    for_each (workday_body year) (before, hd) workdays = Ok st ->
    exists days, snd st = hd ++ map workday_line days
                 /\ length days = length workdays.
Proof.
  induction workdays as [|w ws IH]; intros before hd st H.
  - inversion H; subst. exists []. cbn. rewrite app_nil_r. auto.
  - cbn [for_each] in H. unfold workday_body at 1 in H.
    destruct (complete_workday year before w) as [w'|e]; [|discriminate].
    cbn [bind] in H.
    destruct (strptime w' fmt_cn) as [t|e]; [|discriminate].
    cbn [bind] in H. apply IH in H as (days & E & L).
    exists (strftime_iso t :: days). split.
    + rewrite E, <- app_assoc. reflexivity.
    + cbn. congruence.
Qed.

Lemma workdays_loop_lines (year : str) (hd hd' : list interval)
    (workdays : list str) :
  workdays_loop year hd workdays = Ok hd' ->
  exists days, hd' = hd ++ map workday_line days
               /\ length days = length workdays.
Proof.
  unfold workdays_loop. intros H.
  destruct (for_each (workday_body year) ([], hd) workdays) as [[b h]|e] eqn:E;
    [|discriminate].
  cbn in H. inversion H; subst.
  apply for_each_workday_body in E. exact E.
Qed.

(** X3.  On any line: when the workday extraction returns, it has appended
    to the list one single-day [is_workday = true] line per day mention that
    the day pattern finds in the runs of the line, and nothing else. *)
Theorem extract_workdays_lines (year : str) (holiday_line : str)
    (hd hd' : list interval) :
  extract_workdays year hd holiday_line = Ok hd' ->
  exists days, hd' = hd ++ map workday_line days
               /\ length days = length (workday_mentions holiday_line).
Proof.
  unfold extract_workdays, workday_mentions.
  generalize (finditer reg_workday_occur holiday_line) as occurs.
  intros occurs. revert hd.
  induction occurs as [|m occurs IH]; intros hd H.
  - inversion H; subst. exists []. cbn. rewrite app_nil_r. auto.
  - cbn [for_each] in H. unfold workday_occur_body at 1 in H.
    cbn [flat_map].
    destruct (m_group 1 m) as [work_str|]; [|discriminate].
    destruct (workdays_loop year hd (findall reg_workday work_str))
      as [hd1|e] eqn:E; [|discriminate].
    cbn [bind] in H.
    apply workdays_loop_lines in E as (d1 & E1 & L1).
    apply IH in H as (d2 & E2 & L2).
    exists (d1 ++ d2). split.
    + rewrite E2, E1, map_app, app_assoc. reflexivity.
    + rewrite !length_app. congruence.
Qed.

Lemma extract_workdays_lines_witness :
  exists days,
    [(u "2019-12-28", u "2019-12-28", true);
     (u "2020-01-19", u "2020-01-19", true);
     (u "2020-02-01", u "2020-02-01", true)]
    = [(u "2019-12-28", u "2019-12-28", true)] ++ map workday_line days
    /\ length days
       = length (workday_mentions (u "1月19日、2月1日上班。")).
Proof.
  apply (extract_workdays_lines (u "2020") (u "1月19日、2月1日上班。")
           [(u "2019-12-28", u "2019-12-28", true)]
           [(u "2019-12-28", u "2019-12-28", true);
            (u "2020-01-19", u "2020-01-19", true);
            (u "2020-02-01", u "2020-02-01", true)]).
  vm_compute. reflexivity.
Defined.

(** *** What a notice parses to *)








(** *** The patterns on a run of mentions *)

Lemma plus_loop_unfold {A} r (k : cursor -> captures -> option A) n c g :
  plus_loop r k n c g
  = rmatch r c g (fun c' g' =>
      match n with
      | O => k c' g'
      | S n' => orelse (plus_loop r k n' c' g') (k c' g')
      end).
Proof. destruct n; reflexivity. Qed.

Lemma char_eqb_refl a : char_eqb a a = true.
Proof. apply N.eqb_refl. Qed.

Lemma digit_neq (a d : char) :
  is_digit a = false -> is_digit d = true -> char_eqb a d = false.
Proof. intros Ha Hd. unfold char_eqb. apply N.eqb_neq. intros ->. congruence. Qed.

Lemma orelse_none_r {A} (a : option A) : orelse a None = a.
Proof. destruct a; reflexivity. Qed.

Ltac rstep :=
  match goal with
  | H : is_digit ?d = _ |- context [is_digit ?d] => rewrite H
  | |- context [is_digit ?d] => closed_bool (is_digit d)
  | |- context [char_eqb ?a ?a] => rewrite (char_eqb_refl a)
  | H : is_digit ?d = true |- context [char_eqb ?a ?d] =>
      rewrite (digit_neq a d eq_refl H)
  | |- context [char_eqb ?a ?b] => closed_bool (char_eqb a b)
  end.

Ltac rsimpl :=
  cbn [rmatch after before orelse];
  repeat (rstep; cbn [rmatch after before orelse]);
  rewrite ?orelse_none_r.

(* destruct digit strings of bounded length into their characters *)
Lemma len_in_12 s : len_in 1 2 s = true -> all_digits s = true ->
  (exists a, s = [a] /\ is_digit a = true)
  \/ (exists a b, s = [a; b] /\ is_digit a = true /\ is_digit b = true).
Proof.
  unfold len_in, all_digits. intros L D.
  destruct s as [|a [|b [|c s]]]; cbn in L; try discriminate.
  - left. exists a. cbn [forallb] in D. rewrite andb_true_r in D. auto.
  - right. exists a, b. cbn [forallb] in D. rewrite andb_true_r in D.
    apply andb_true_iff in D as [? ?]. auto.
Qed.

Lemma len_in_44 s : len_in 4 4 s = true -> all_digits s = true ->
  exists a b c d, s = [a; b; c; d] /\ is_digit a = true /\ is_digit b = true
                  /\ is_digit c = true /\ is_digit d = true.
Proof.
  unfold len_in, all_digits. intros L D.
  destruct s as [|a [|b [|c [|d [|e s]]]]]; cbn in L; try discriminate.
  exists a, b, c, d. cbn [forallb] in D. rewrite andb_true_r in D.
  do 3 (apply andb_true_iff in D as [? D]). repeat split; auto.
Qed.

Ltac split_shape H :=
  unfold mention_shape in H; cbn [mention_digits] in H;
  repeat match type of H with
         | _ && _ = true => let H' := fresh "S" in apply andb_true_iff in H as [H H']
         end;
  repeat match goal with
         | H : _ && _ = true |- _ => let H' := fresh "S" in apply andb_true_iff in H as [H H']
         end;
  repeat match goal with
         | L : len_in 1 2 ?s = true, D : all_digits ?s = true |- _ =>
             destruct (len_in_12 s L D) as [(? & -> & ?) | (? & ? & -> & ? & ?)];
             clear L D
         | L : len_in 4 4 ?s = true, D : all_digits ?s = true |- _ =>
             destruct (len_in_44 s L D) as (? & ? & ? & ? & -> & ? & ? & ? & ?);
             clear L D
         end.

Lemma body_mention_comma {A} (x : mention) pre rest g
    (k : cursor -> captures -> option A) :
  mention_shape x = true ->
  rmatch workday_run_body (Cursor pre (render x ++ c_comma :: rest)) g k
  = orelse (k (Cursor (c_comma :: rev (render x) ++ pre) rest) g)
           (k (Cursor (rev (render x) ++ pre) (c_comma :: rest)) g).
Proof.
  intros H. destruct x as [y m d|m d|d]; split_shape H;
    cbn [render full_date app rev]; unfold workday_run_body, digits, digit;
    rsimpl; reflexivity.
Qed.

Lemma body_mention_last {A} (x : mention) pre c rest g
    (k : cursor -> captures -> option A) :
  mention_shape x = true ->
  is_digit c = false -> char_eqb c_comma c = false ->
  rmatch workday_run_body (Cursor pre (render x ++ c :: rest)) g k
  = k (Cursor (rev (render x) ++ pre) (c :: rest)) g.
Proof.
  intros H Hc Hcc. destruct x as [y m d|m d|d]; split_shape H;
    cbn [render full_date app rev]; unfold workday_run_body, digits, digit;
    rsimpl; rewrite ?Hcc; rsimpl; reflexivity.
Qed.

Lemma body_fails {A} pre c rest g (k : cursor -> captures -> option A) :
  is_digit c = false ->
  rmatch workday_run_body (Cursor pre (c :: rest)) g k = None.
Proof.
  intros Hc. unfold workday_run_body, digits, digit. rsimpl. reflexivity.
Qed.

Lemma between_rev_app (pre w a b : str) :
  between (Cursor pre a) (Cursor (rev w ++ pre) b) = w.
Proof.
  unfold between. cbn [before].
  rewrite length_app, Nat.add_sub.
  rewrite firstn_app, Nat.sub_diag, firstn_all. cbn [firstn].
  rewrite app_nil_r. apply rev_involutive.
Qed.

(** X11.  The title that [search_notice_url] asks for and the title pattern
    of [parse_holiday_info] agree: on a text that starts with the title of
    a year of four digits, the pattern matches and its group is that
    year. *)
Theorem title_gives_year (year rest : str) :
  len_in 4 4 year = true -> all_digits year = true ->
  exists m, re_match reg_title (notice_title year ++ rest) = Some m
            /\ m_group 1 m = Some year.
Proof.
  intros L D.
  destruct (len_in_44 year L D) as (a & b & c & d & -> & Ha & Hb & Hc & Hd).
  unfold re_match, match_at, notice_title, reg_title, digits, digit, RStr.
  eval_text. cbn [app fold_right].
  rsimpl. eexists. split; [reflexivity|].
  reflexivity.
Qed.

Lemma title_gives_year_witness :
  exists m,
    re_match reg_title
      (notice_title (u "2020") ++ u "各省、自治区、直辖市人民政府") = Some m
    /\ m_group 1 m = Some (u "2020").
Proof.
  apply (title_gives_year (u "2020") (u "各省、自治区、直辖市人民政府"));
    reflexivity.
Defined.

Lemma render_length (x : mention) : (1 <= length (render x))%nat.
Proof.
  destruct x; cbn [render full_date]; rewrite !length_app; cbn; lia.
Qed.

(** The loop of the run pattern over a run of mentions: the greedy path
    takes every mention. *)
Lemma plus_loop_run {A} (k : cursor -> captures -> option A) (v : A)
    (c : char) (tail : str) :
  is_digit c = false -> char_eqb c_comma c = false ->
  forall (ms : list mention) (x : mention) (n : nat) (pre : str) (g : captures),
    forallb mention_shape (x :: ms) = true ->
    (length (run_text (x :: ms) ++ c :: tail) <= n)%nat ->
    k (Cursor (rev (run_text (x :: ms)) ++ pre) (c :: tail)) g = Some v ->
    plus_loop workday_run_body k n
      (Cursor pre (run_text (x :: ms) ++ c :: tail)) g = Some v.
Proof.
  intros Hc Hcc. induction ms as [|y ms IH]; intros x n pre g Hs Hn Hk.
  - cbn [run_text] in *. cbn [forallb] in Hs. rewrite andb_true_r in Hs.
    rewrite plus_loop_unfold, (body_mention_last _ _ _ _ _ _ Hs Hc Hcc).
    destruct n as [|n]; [exact Hk|].
    rewrite plus_loop_unfold, (body_fails _ _ _ _ _ Hc). exact Hk.
  - change (run_text (x :: y :: ms))
      with (render x ++ [c_comma] ++ run_text (y :: ms)) in *.
    cbn [forallb] in Hs. apply andb_true_iff in Hs as [Hx Hs].
    rewrite <- !app_assoc in *. cbn [app] in *.
    rewrite plus_loop_unfold, (body_mention_comma _ _ _ _ _ Hx).
    rewrite length_app in Hn. cbn [length] in Hn.
    pose proof (render_length x) as Lx.
    destruct n as [|n]; [lia|].
    rewrite (IH y n (c_comma :: rev (render x) ++ pre) g Hs); [reflexivity| lia |].
    rewrite <- Hk. f_equal. f_equal.
    rewrite !rev_app_distr. cbn [rev app]. rewrite <- !app_assoc. reflexivity.
Qed.

Lemma rmatch_group_plus_seq {A} i b s c g (k : cursor -> captures -> option A) :
  rmatch (RSeq (RGroup i (RPlus b)) s) c g k
  = plus_loop b (fun c' g' => rmatch s c' ((i, between c c') :: g') k)
              (length (after c)) c g.
Proof. reflexivity. Qed.

(** The run pattern at the start of a run that is followed by "上班。". *)
Lemma match_run (x : mention) (ms : list mention) (pre rest : str) :
  forallb mention_shape (x :: ms) = true ->
  match_at reg_workday_occur
    (Cursor pre (run_text (x :: ms) ++ u "上班。" ++ rest))
  = Some (Cursor (rev (run_text (x :: ms) ++ u "上班。") ++ pre) rest,
          MObj (run_text (x :: ms) ++ u "上班。")
               [(1%nat, run_text (x :: ms))] 1).
Proof.
  intros Hs. unfold match_at.
  unfold reg_workday_occur. fold workday_run_body.
  rewrite rmatch_group_plus_seq.
  change (u "上班。" ++ rest) with (c_shang :: (u "班。" ++ rest)).
  apply plus_loop_run; auto.
  change (u "班。" ++ rest) with (ch "班" :: ch "。" :: rest).
  change (u "上班。") with [c_shang; ch "班"; ch "。"].
  unfold RStr. cbn [rmatch fold_right after before].
  rewrite !char_eqb_refl.
  f_equal. f_equal.
  - f_equal. rewrite rev_app_distr. reflexivity.
  - f_equal.
    + replace (ch "。" :: ch "班" :: c_shang :: rev (run_text (x :: ms)) ++ pre)
        with (rev (run_text (x :: ms) ++ [c_shang; ch "班"; ch "。"]) ++ pre)
        by (rewrite rev_app_distr; reflexivity).
      apply between_rev_app.
    + f_equal. f_equal. apply between_rev_app.
Qed.

(** A line without an opening parenthesis is left as it is. *)
Lemma sub_empty_no_paren (line : str) :
  forallb (fun c => negb (one_of (u "(（") c)) line = true ->
  forall pre, sub_empty_from P_LINE_FIX pre line O = line.
Proof.
  induction line as [|c line IH]; intros H pre; [reflexivity|].
  cbn [forallb] in H. apply andb_true_iff in H as [Hc Hl].
  apply negb_true_iff in Hc.
  cbn [sub_empty_from]. unfold match_at, P_LINE_FIX at 1.
  cbn [rmatch after]. rewrite Hc, (IH Hl). reflexivity.
Qed.

(** X7.  [fix_line] leaves a line without an opening parenthesis, ASCII or
    full-width, as it is. *)
Theorem fix_line_no_paren (line : str) :
  forallb (fun c => negb (one_of (u "(（") c)) line = true ->
  fix_line line = line.
Proof. intros H. apply sub_empty_no_paren. exact H. Qed.

Lemma sub_empty_prefix (a : str) :
  forallb (fun c => negb (one_of (u "(（") c)) a = true ->
  forall pre rest,
    sub_empty_from P_LINE_FIX pre (a ++ rest) O
    = a ++ sub_empty_from P_LINE_FIX (rev a ++ pre) rest O.
Proof.
  induction a as [|c a IH]; intros H pre rest; [reflexivity|].
  cbn [forallb] in H. apply andb_true_iff in H as [Hc Ha].
  apply negb_true_iff in Hc.
  cbn [app sub_empty_from]. unfold match_at, P_LINE_FIX at 1.
  cbn [rmatch after]. rewrite Hc, (IH Ha). cbn [rev].
  rewrite <- app_assoc. reflexivity.
Qed.

Lemma sub_empty_from_skip (r : regex) :
  forall (w pre rest : str),
    sub_empty_from r pre (w ++ rest) (length w)
    = sub_empty_from r (rev w ++ pre) rest O.
Proof.
  induction w as [|x w IH]; intros pre rest; [reflexivity|].
  cbn [length app sub_empty_from rev]. rewrite IH, <- app_assoc. reflexivity.
Qed.

(** The greedy loop over a class takes every character of the class in
    front of it, when the rest of the pattern matches from there. *)
Lemma plus_loop_class {A} (p : char -> bool)
    (k : cursor -> captures -> option A) (v : A) (c : char) (tail : str) :
  p c = false ->
  forall (w : str) (x : char) (n : nat) (pre : str) (g : captures),
    forallb p (x :: w) = true ->
    (length w <= n)%nat ->
    k (Cursor (rev (x :: w) ++ pre) (c :: tail)) g = Some v ->
    plus_loop (RSet p) k n (Cursor pre (x :: w ++ c :: tail)) g = Some v.
Proof.
  intros Hc. induction w as [|y w IH]; intros x n pre g Hp Hn Hk;
    cbn [forallb] in Hp; apply andb_true_iff in Hp as [Hx Hp];
    rewrite plus_loop_unfold; cbn [rmatch after before app]; rewrite Hx.
  - destruct n as [|n]; [exact Hk|].
    rewrite plus_loop_unfold. cbn [rmatch after]. rewrite Hc.
    exact Hk.
  - cbn [length] in Hn. destruct n as [|n]; [lia|].
    rewrite (IH y n (x :: pre) g Hp); [reflexivity|lia|].
    rewrite <- Hk. f_equal. f_equal. cbn [rev]. rewrite <- !app_assoc.
    reflexivity.
Qed.

Lemma rmatch_plus_seq {A} b s c g (k : cursor -> captures -> option A) :
  rmatch (RSeq (RPlus b) s) c g k
  = plus_loop b (fun c' g' => rmatch s c' g' k) (length (after c)) c g.
Proof. reflexivity. Qed.

(** The pattern of [fix_line] on a parenthetical annotation. *)
Lemma match_annotation (o x c : char) (w pre b : str) :
  one_of (u "(（") o = true ->
  forallb (none_of (u ")）")) (x :: w) = true ->
  one_of (u ")）") c = true ->
  match_at P_LINE_FIX (Cursor pre (o :: x :: w ++ c :: b))
  = Some (Cursor (rev (o :: x :: w ++ [c]) ++ pre) b,
          MObj (o :: x :: w ++ [c]) [] 0).
Proof.
  intros Ho Hw Hc.
  assert (Hn : none_of (u ")）") c = false).
  { unfold none_of. unfold one_of in Hc. rewrite Hc. reflexivity. }
  assert (Ha : any_char c = true).
  { unfold one_of, contains in Hc. cbn in Hc.
    rewrite !orb_true_iff in Hc. unfold char_eqb in Hc.
    destruct Hc as [Hc|[Hc|Hc]]; [| |discriminate];
      apply N.eqb_eq in Hc; subst; reflexivity. }
  unfold match_at, P_LINE_FIX.
  change (rmatch (RSet (one_of (u "(（")) +++ ?r)
            (Cursor pre (o :: ?t)) ?g ?k)
    with (if one_of (u "(（") o
          then rmatch r (Cursor (o :: pre) t) g k else None).
  rewrite Ho, rmatch_plus_seq.
  apply plus_loop_class; [exact Hn|exact Hw| |].
  - cbn [after length]. rewrite length_app. lia.
  - cbn [rmatch after before]. rewrite Ha. f_equal. f_equal.
    + f_equal. cbn [rev]. rewrite !rev_app_distr. cbn [rev app].
      rewrite <- !app_assoc. reflexivity.
    + f_equal.
      replace (c :: rev (x :: w) ++ o :: pre)
        with (rev (o :: x :: w ++ [c]) ++ pre).
      * apply between_rev_app.
      * cbn [rev]. rewrite !rev_app_distr. cbn [rev app].
        rewrite <- !app_assoc. reflexivity.
Qed.

(** X8.  [fix_line] removes a parenthetical annotation: an opening
    parenthesis, the one or more characters up to the first closing
    parenthesis, and that parenthesis (each of them ASCII or full-width),
    on a line that has no other opening parenthesis. *)
Theorem fix_line_annotation (a b w : str) (o x c : char) :
  forallb (fun y => negb (one_of (u "(（") y)) a = true ->
  forallb (fun y => negb (one_of (u "(（") y)) b = true ->
  one_of (u "(（") o = true ->
  forallb (none_of (u ")）")) (x :: w) = true ->
  one_of (u ")）") c = true ->
  fix_line (a ++ o :: x :: w ++ c :: b) = a ++ b.
Proof.
  intros Ha Hb Ho Hw Hc. unfold fix_line, sub_empty.
  rewrite (sub_empty_prefix a Ha). f_equal.
  cbn [sub_empty_from].
  rewrite (match_annotation o x c w _ b Ho Hw Hc). cbn [m_text length].
  replace (w ++ c :: b) with ((w ++ [c]) ++ b)
    by (rewrite <- app_assoc; reflexivity).
  rewrite sub_empty_from_skip. apply sub_empty_no_paren. exact Hb.
Qed.

Lemma fix_line_annotation_witness :
  fix_line (u "1月19日（星期日）、2月1日上班。") = u "1月19日、2月1日上班。".
Proof.
  apply (fix_line_annotation (u "1月19日") (u "、2月1日上班。") (u "期日")
           (ch "（") (ch "星") (ch "）")); reflexivity.
Defined.

Lemma fix_line_no_paren_witness :
  fix_line (u "1月19日、2月1日)上班。") = u "1月19日、2月1日)上班。".
Proof.
  apply (fix_line_no_paren (u "1月19日、2月1日)上班。")). reflexivity.
Defined.

(** *** Scanning a line *)

Lemma finditer_from_skip (r : regex) :
  forall (w pre rest : str),
    finditer_from r pre (w ++ rest) (length w)
    = finditer_from r (rev w ++ pre) rest O.
Proof.
  induction w as [|x w IH]; intros pre rest; [reflexivity|].
  cbn [length app finditer_from rev]. rewrite IH, <- app_assoc. reflexivity.
Qed.

Lemma finditer_from_match (r : regex) (pre w rest : str) (c' : cursor) (m : mobj) :
  match_at r (Cursor pre (w ++ rest)) = Some (c', m) ->
  m_text m = w -> w <> [] ->
  finditer_from r pre (w ++ rest) O = m :: finditer_from r (rev w ++ pre) rest O.
Proof.
  intros Hm Ht Hw. destruct w as [|x w]; [congruence|].
  cbn [app] in *. cbn [finditer_from]. rewrite Hm, Ht. cbn [length Nat.pred].
  rewrite finditer_from_skip. cbn [rev]. rewrite <- app_assoc. reflexivity.
Qed.

Lemma finditer_from_no_match (r : regex) (pre rest : str) (x : char) :
  match_at r (Cursor pre (x :: rest)) = None ->
  finditer_from r pre (x :: rest) O = finditer_from r (x :: pre) rest O.
Proof. intros H. cbn [finditer_from]. rewrite H. reflexivity. Qed.

Lemma finditer_from_end (r : regex) (pre : str) :
  match_at r (Cursor pre []) = None -> finditer_from r pre [] O = [].
Proof. intros H. cbn [finditer_from]. rewrite H. reflexivity. Qed.

Lemma run_pattern_at_end (pre : str) :
  match_at reg_workday_occur (Cursor pre []) = None.
Proof. reflexivity. Qed.

Lemma char_eqb_eq (a b : char) : char_eqb a b = true -> b = a.
Proof. intros H. apply N.eqb_eq in H. auto. Qed.

Lemma run_body_alphabet (c : char) :
  alphabet workday_run_body c = true -> run_char c = true.
Proof.
  unfold workday_run_body, digits, digit, run_char, one_of, contains.
  cbn [alphabet]. intros H.
  destruct (is_digit c); [reflexivity|]. cbn [orb] in *.
  change (u "年月日、") with [c_year; c_month; c_day; c_comma].
  cbn [existsb]. unfold char_eqb in *.
  rewrite (N.eqb_sym c c_year), (N.eqb_sym c c_month), (N.eqb_sym c c_day),
    (N.eqb_sym c c_comma).
  destruct (c_year =? c)%N, (c_month =? c)%N, (c_day =? c)%N,
    (c_comma =? c)%N; try reflexivity; discriminate H.
Qed.

(** Where the run pattern matches, the subject reads: characters of a run,
    then "上班。". *)
Lemma run_pattern_span (pre text : str) (r : cursor * mobj) :
  match_at reg_workday_occur (Cursor pre text) = Some r ->
  exists w rest, text = w ++ c_shang :: c_ban :: ch "。" :: rest
                 /\ forallb run_char w = true.
Proof.
  unfold match_at, reg_workday_occur. fold workday_run_body.
  intros H.
  change (rmatch (RGroup 1 (RPlus workday_run_body)) (Cursor pre text) []
            (fun c' g' =>
               rmatch (RStr (u "上班。")) c' g'
                 (fun c'' g'' =>
                    Some (c'', MObj (between (Cursor pre text) c'') g''
                                    (ngroups (RGroup 1 (RPlus workday_run_body)
                                              +++ RStr (u "上班。"))))))
          = Some r) in H.
  apply rmatch_span in H as (w & c1 & g1 & E & F & H).
  cbn [after] in E. exists w.
  change (u "上班。") with [c_shang; c_ban; ch "。"] in H.
  unfold RStr in H. cbn [fold_right rmatch] in H.
  destruct (after c1) as [|y1 [|y2 [|y3 rest]]] eqn:E1; cbn [after] in H;
    try discriminate;
    try (destruct (char_eqb c_shang y1); discriminate);
    try (destruct (char_eqb c_shang y1); [|discriminate];
         destruct (char_eqb c_ban y2); discriminate).
  destruct (char_eqb c_shang y1) eqn:H1; [|discriminate].
  destruct (char_eqb c_ban y2) eqn:H2; [|discriminate].
  destruct (char_eqb (ch "。") y3) eqn:H3; [|discriminate].
  apply char_eqb_eq in H1, H2, H3. subst.
  exists rest. split; [reflexivity|].
  revert F. apply forallb_weaken. cbn [alphabet]. apply run_body_alphabet.
Qed.

(** No match without a "班" ahead. *)
Lemma run_pattern_needs_ban (pre text : str) :
  contains c_ban text = false ->
  match_at reg_workday_occur (Cursor pre text) = None.
Proof.
  intros H.
  destruct (match_at reg_workday_occur (Cursor pre text)) as [r|] eqn:E;
    [|reflexivity].
  apply run_pattern_span in E as (w & rest & -> & _).
  rewrite contains_app in H. apply orb_false_iff in H as [_ H].
  cbn [contains existsb] in H. rewrite char_eqb_refl, !orb_true_r in H.
  cbn in H. discriminate.
Qed.

Lemma finditer_no_ban (s : str) :
  contains c_ban s = false ->
  forall pre, finditer_from reg_workday_occur pre s O = [].
Proof.
  induction s as [|c s IH]; intros H pre.
  - apply finditer_from_end, run_pattern_at_end.
  - rewrite finditer_from_no_match by (apply run_pattern_needs_ban; exact H).
    apply IH. cbn [contains existsb] in H.
    apply orb_false_iff in H as [_ H]. exact H.
Qed.

(** X10.  A line without the character "班" yields no compensating
    workday: the workday loop returns the list as it was, and does not
    raise. *)
Theorem no_workday_without_ban (year : str) (holiday_data : list interval)
    (holiday_line : str) :
  contains c_ban holiday_line = false ->
  extract_workdays year holiday_data holiday_line = Ok holiday_data.
Proof.
  intros H. unfold extract_workdays, finditer.
  rewrite (finditer_no_ban holiday_line H). reflexivity.
Qed.

Lemma no_workday_without_ban_witness :
  extract_workdays (u "2020") [] (u "1月1日放假、31日、32日、13月1日共1天。")
  = Ok [].
Proof.
  apply (no_workday_without_ban (u "2020") []
           (u "1月1日放假、31日、32日、13月1日共1天。")).
  reflexivity.
Defined.

Lemma apart_tail (x : char) (q : str) :
  q <> [] -> apart (x :: q) = true -> apart q = true.
Proof.
  unfold apart. cbn [rev]. intros Hq.
  destruct (rev q) as [|y t] eqn:E.
  - apply (f_equal (@rev char)) in E. rewrite rev_involutive in E.
    cbn in E. congruence.
  - cbn [app]. auto.
Qed.

(** A text that ends apart from the run and holds no "班" cannot start a
    match that reaches the "上班。" after the run. *)
Lemma span_apart :
  forall (w q : str) (d : char) (r1 r2 : str),
    forallb run_char w = true ->
    q <> [] -> apart q = true -> contains c_ban q = false ->
    d <> c_ban ->
    w ++ c_shang :: c_ban :: r1 = q ++ d :: r2 -> False.
Proof.
  induction w as [|x w IH]; intros q d r1 r2 Hw Hq Ha Hb Hd E.
  - destruct q as [|y [|z q]]; [congruence| |].
    + cbn [app] in E. inversion E; subst. congruence.
    + cbn [app] in E. inversion E; subst.
      cbn [contains existsb] in Hb. rewrite char_eqb_refl in Hb.
      rewrite orb_true_r in Hb. discriminate.
  - cbn [forallb] in Hw. apply andb_true_iff in Hw as [Hx Hw].
    destruct q as [|y q]; [congruence|].
    cbn [app] in E. inversion E; subst.
    destruct q as [|z q].
    + unfold apart in Ha. cbn in Ha. rewrite Hx in Ha. discriminate.
    + apply (IH (z :: q) d r1 r2); auto.
      * discriminate.
      * apply (apart_tail y); [discriminate|exact Ha].
      * cbn [contains existsb] in Hb. apply orb_false_iff in Hb as [_ Hb].
        exact Hb.
Qed.

Lemma run_pattern_before_run (q pre : str) (d : char) (tail : str) :
  q <> [] -> apart q = true -> contains c_ban q = false ->
  is_digit d = true ->
  match_at reg_workday_occur (Cursor pre (q ++ d :: tail)) = None.
Proof.
  intros Hq Ha Hb Hd.
  destruct (match_at reg_workday_occur (Cursor pre (q ++ d :: tail)))
    as [r|] eqn:E; [|reflexivity].
  apply run_pattern_span in E as (w & rest & E & F).
  exfalso. symmetry in E.
  apply (span_apart w q d _ _ F Hq Ha Hb) in E; [exact E|].
  intros ->. discriminate Hd.
Qed.

Lemma finditer_skip_apart (p : str) :
  forall (pre : str) (d : char) (tail : str),
    apart p = true -> contains c_ban p = false -> is_digit d = true ->
    finditer_from reg_workday_occur pre (p ++ d :: tail) O
    = finditer_from reg_workday_occur (rev p ++ pre) (d :: tail) O.
Proof.
  induction p as [|c p IH]; intros pre d tail Ha Hb Hd; [reflexivity|].
  cbn [app].
  rewrite finditer_from_no_match.
  2:{ apply (run_pattern_before_run (c :: p)); auto. discriminate. }
  cbn [contains existsb] in Hb. apply orb_false_iff in Hb as [_ Hb].
  rewrite IH; auto.
  - cbn [rev]. rewrite <- app_assoc. reflexivity.
  - destruct p as [|y p]; [reflexivity|].
    apply (apart_tail c); [discriminate|exact Ha].
Qed.

Lemma run_text_not_nil (x : mention) (ms : list mention) :
  run_text (x :: ms) <> [].
Proof.
  pose proof (render_length x) as L. intros E.
  apply (f_equal (@length char)) in E.
  destruct ms; cbn [run_text] in E; rewrite ?length_app in E; cbn [length] in E;
    lia.
Qed.

(** A run starts with a digit. *)
Lemma run_text_head (x : mention) (ms : list mention) :
  mention_shape x = true ->
  exists d t, run_text (x :: ms) = d :: t /\ is_digit d = true.
Proof.
  intros H.
  assert (R : exists d t, render x = d :: t /\ is_digit d = true).
  { destruct x as [y m d|m d|d]; split_shape H;
      cbn [render full_date app]; eauto. }
  destruct R as (d & t & E & Hd).
  destruct ms as [|y ms]; cbn [run_text]; rewrite E; cbn [app]; eauto.
Qed.

(** A line on which a run and "上班。" come after a text that leaves the run
    whole, with no other "班" on the line, holds exactly one match of the
    run pattern, whose group is the run. *)
Lemma finditer_run_line (x : mention) (ms : list mention) (p s : str) :
  forallb mention_shape (x :: ms) = true ->
  apart p = true ->
  contains c_ban p = false -> contains c_ban s = false ->
  finditer reg_workday_occur (p ++ run_text (x :: ms) ++ u "上班。" ++ s)
  = [MObj (run_text (x :: ms) ++ u "上班。") [(1%nat, run_text (x :: ms))] 1].
Proof.
  intros Hs Ha Hp Hsuf. unfold finditer.
  assert (Hx : mention_shape x = true).
  { cbn [forallb] in Hs. apply andb_true_iff in Hs as [Hx _]. exact Hx. }
  destruct (run_text_head x ms Hx) as (d & t & E & Hd).
  assert (Sk : finditer_from reg_workday_occur []
                 (p ++ run_text (x :: ms) ++ u "上班。" ++ s) O
               = finditer_from reg_workday_occur (rev p ++ [])
                   (run_text (x :: ms) ++ u "上班。" ++ s) O).
  { rewrite E. cbn [app]. apply finditer_skip_apart; auto. }
  rewrite Sk, app_assoc.
  erewrite finditer_from_match.
  - rewrite (finditer_no_ban s Hsuf). reflexivity.
  - rewrite <- app_assoc. apply match_run. exact Hs.
  - reflexivity.
  - intros E'. apply app_eq_nil in E' as [E' _].
    exact (run_text_not_nil x ms E').
Qed.

(** *** The day mentions of a run *)

(** The day pattern at a mention that states its month, or that comes right
    after "、". *)
Lemma match_mention (x : mention) (pre rest : str) :
  mention_shape x = true ->
  states_month x = true \/ (exists pre', pre = c_comma :: pre') ->
  match_at reg_workday (Cursor pre (render x ++ rest))
  = Some (Cursor (rev (render x) ++ pre) rest, MObj (render x) [] 0).
Proof.
  intros H Hpre. unfold match_at.
  destruct x as [y m d|m d|d]; split_shape H;
    cbn [render full_date app rev]; unfold reg_workday, digits, digit;
    try (destruct Hpre as [Hpre | [pre' ->]]; [discriminate Hpre|]);
    rsimpl;
    (f_equal; f_equal; f_equal;
     match goal with
     | |- between _ _ = ?w => apply (between_rev_app _ w)
     end).
Qed.

Lemma day_pattern_at_comma (pre rest : str) :
  match_at reg_workday (Cursor (c_day :: pre) (c_comma :: rest)) = None.
Proof. reflexivity. Qed.

Lemma day_pattern_at_end (pre : str) :
  match_at reg_workday (Cursor pre []) = None.
Proof. unfold match_at, reg_workday, digits, digit. cbn [rmatch after before orelse].
  destruct pre as [|y t]; [reflexivity|]. destruct (char_eqb c_comma y); reflexivity.
Qed.

Lemma rev_render_day (x : mention) :
  exists w, rev (render x) = c_day :: w.
Proof.
  destruct x as [y m d|m d|d]; cbn [render full_date];
    rewrite ?app_assoc; rewrite rev_app_distr; cbn [rev app]; eauto.
Qed.

Lemma finditer_mentions :
  forall (ms : list mention) (x : mention) (pre : str),
    forallb mention_shape (x :: ms) = true ->
    states_month x = true \/ (exists pre', pre = c_comma :: pre') ->
    finditer_from reg_workday pre (run_text (x :: ms)) O
    = map (fun y => MObj (render y) [] 0) (x :: ms).
Proof.
  induction ms as [|y ms IH]; intros x pre Hs Hpre;
    cbn [forallb] in Hs; apply andb_true_iff in Hs as [Hx Hs].
  - cbn [run_text map]. rewrite <- (app_nil_r (render x)) at 1.
    erewrite finditer_from_match.
    + rewrite finditer_from_end by apply day_pattern_at_end. reflexivity.
    + apply match_mention; assumption.
    + reflexivity.
    + pose proof (render_length x) as L. intros E. rewrite E in L.
      cbn in L. lia.
  - change (run_text (x :: y :: ms))
      with (render x ++ [c_comma] ++ run_text (y :: ms)).
    erewrite finditer_from_match.
    + destruct (rev_render_day x) as [w ->]. cbn [app].
      rewrite finditer_from_no_match by apply day_pattern_at_comma.
      rewrite IH; [reflexivity | exact Hs | right; eauto].
    + apply match_mention; assumption.
    + reflexivity.
    + pose proof (render_length x) as L. intros E. rewrite E in L.
      cbn in L. lia.
Qed.

Lemma findall_run (x : mention) (ms : list mention) :
  forallb mention_shape (x :: ms) = true ->
  states_month x = true ->
  findall reg_workday (run_text (x :: ms)) = map render (x :: ms).
Proof.
  intros Hs Hx. unfold findall, finditer.
  rewrite finditer_mentions by auto.
  rewrite map_map. reflexivity.
Qed.

Lemma mention_shape_digits (ms : list mention) :
  forallb mention_shape ms = true -> forallb mention_digits ms = true.
Proof.
  induction ms as [|x ms IH]; [reflexivity|]. cbn [forallb].
  intros H. apply andb_true_iff in H as [Hx Hs].
  rewrite (IH Hs), andb_true_r.
  unfold mention_shape in Hx. apply andb_true_iff in Hx as [Hx _]. exact Hx.
Qed.

(** C4 (amended).  In a run whose first day mention states its month, the
    day pattern finds every mention, and every mention is completed by the
    rule of [resolve]: a bare day takes the month of the nearest mention
    before it that states one, and the year that mention was given, its own
    or else the notice's; a mention with a month and no year takes the
    notice's year.  The loop appends one line per mention, and raises when a
    completed date is not a day of the calendar. *)
Theorem workday_run_inherits (year : str) (holiday_data : list interval)
    (x : mention) (ms : list mention) :
  all_digits year = true ->
  forallb mention_shape (x :: ms) = true ->
  states_month x = true ->
  workdays_loop year holiday_data (findall reg_workday (run_text (x :: ms)))
  = (days <- map_result to_iso
               (map full_date (resolve year (year, []) (x :: ms))) ;;
     Ok (holiday_data ++ map workday_line days)).
Proof.
  intros Dyear Hs Hx. rewrite (findall_run x ms Hs Hx).
  apply workdays_loop_resolve; auto.
  apply mention_shape_digits. exact Hs.
Qed.

(** The run "2019年12月28日、29日、1月4日、5日" of a notice for 2020:
    "29日" is a day of December 2019, "5日" a day of January 2020. *)
Lemma workday_run_inherits_witness :
  workdays_loop (u "2020") []
    (findall reg_workday (u "2019年12月28日、29日、1月4日、5日"))
  = Ok (map workday_line [u "2019-12-28"; u "2019-12-29";
                          u "2020-01-04"; u "2020-01-05"]).
Proof.
  change (u "2019年12月28日、29日、1月4日、5日")
    with (run_text [YearMonthDay (u "2019") (u "12") (u "28"); DayOnly (u "29");
                    MonthDay (u "1") (u "4"); DayOnly (u "5")]).
  rewrite (workday_run_inherits (u "2020") []
             (YearMonthDay (u "2019") (u "12") (u "28"))
             [DayOnly (u "29"); MonthDay (u "1") (u "4"); DayOnly (u "5")]
             eq_refl eq_refl eq_refl).
  vm_compute. reflexivity.
Defined.

(** C4 as stated fails: in the run "2019年12月28日、29日" of the notice for
    2020 the mention "29日" has no year, and the year it is given is 2019,
    the year of the mention before it, not the notice's.  (And a run that
    starts with a bare day has no mention to inherit from: the loop
    raises.) *)
Lemma bare_day_takes_year_of_previous :
  findall reg_workday (u "2019年12月28日、29日")
  = [u "2019年12月28日"; u "29日"]
  /\ contains c_year (u "29日") = false
  /\ complete_workday (u "2020") (u "2019年12月28日") (u "29日")
     = Ok (u "2019年12月29日")
  /\ extract_workdays (u "2020") [] (fix_line (u "2019年12月28日、29日上班。"))
     = Ok [(u "2019-12-28", u "2019-12-28", true);
           (u "2019-12-29", u "2019-12-29", true)]
  /\ u "2019-12-29" <> u "2020-12-29"
  /\ extract_workdays (u "2020") [] (fix_line (u "19日、20日上班。"))
     = Err ValueError.
Proof.
  repeat split; try (vm_compute; reflexivity).
  vm_compute. discriminate.
Qed.

(** C3 (amended).  The run pattern ends with the full stop.  On a line
    that, once [fix_line] has removed its parentheses, holds a run of day
    mentions separated by "、", the first of which states its month,
    followed by "上班。", where the text before the run leaves the run
    whole (it does not end with a digit or with one of "年", "月", "日",
    "、") and the line has no other "班", the extraction returns one
    [is_workday = true] single-day line per mention of the run, each on the
    date the mention resolves to (and raises when one of these is not a day
    of the calendar). *)
Theorem workday_run_lines (year : str) (holiday_data : list interval)
    (holiday_line p s : str) (x : mention) (ms : list mention) :
  all_digits year = true ->
  forallb mention_shape (x :: ms) = true ->
  states_month x = true ->
  apart p = true ->
  contains c_ban p = false -> contains c_ban s = false ->
  fix_line holiday_line = p ++ run_text (x :: ms) ++ u "上班。" ++ s ->
  extract_workdays year holiday_data (fix_line holiday_line)
  = (days <- map_result to_iso
               (map full_date (resolve year (year, []) (x :: ms))) ;;
     Ok (holiday_data ++ map workday_line days))
  /\ forall holiday_data',
       extract_workdays year holiday_data (fix_line holiday_line)
       = Ok holiday_data' ->
       length holiday_data' = (length holiday_data + length (x :: ms))%nat.
Proof.
  intros Dyear Hs Hx Ha Hp Hsuf Hline.
  assert (E : extract_workdays year holiday_data (fix_line holiday_line)
              = workdays_loop year holiday_data (map render (x :: ms))).
  { rewrite Hline. unfold extract_workdays.
    rewrite (finditer_run_line x ms p s Hs Ha Hp Hsuf).
    cbn [for_each]. unfold workday_occur_body.
    change (m_group 1 _) with (Some (run_text (x :: ms))). cbv beta iota zeta.
    rewrite (findall_run x ms Hs Hx).
    destruct (workdays_loop year holiday_data (map render (x :: ms)));
      reflexivity. }
  split.
  - rewrite E. apply workdays_loop_resolve; auto.
    apply mention_shape_digits. exact Hs.
  - intros hd' H. rewrite E in H.
    apply workdays_loop_lines in H as (days & -> & L).
    rewrite length_app, length_map, L, length_map. reflexivity.
Qed.

(** The line of the claim, and a line as the notice for 2020 has it. *)
Lemma workday_run_lines_witness :
  extract_workdays (u "2020") [] (fix_line (u "1月19日上班。"))
  = Ok [(u "2020-01-19", u "2020-01-19", true)]
  /\ extract_workdays (u "2020") []
       (fix_line (u "二、春节：1月24日至30日放假调休，共7天。1月19日（星期日）、2月1日（星期六）上班。"))
     = Ok [(u "2020-01-19", u "2020-01-19", true);
           (u "2020-02-01", u "2020-02-01", true)].
Proof.
  split.
  - destruct (workday_run_lines (u "2020") [] (u "1月19日上班。") [] []
                (MonthDay (u "1") (u "19")) []
                eq_refl eq_refl eq_refl eq_refl eq_refl eq_refl eq_refl)
      as [E _].
    rewrite E. vm_compute. reflexivity.
  - destruct (workday_run_lines (u "2020") []
                (u "二、春节：1月24日至30日放假调休，共7天。1月19日（星期日）、2月1日（星期六）上班。")
                (u "二、春节：1月24日至30日放假调休，共7天。") []
                (MonthDay (u "1") (u "19")) [MonthDay (u "2") (u "1")]
                eq_refl eq_refl eq_refl eq_refl eq_refl eq_refl eq_refl)
      as [E _].
    rewrite E. vm_compute. reflexivity.
Defined.

(** C3 as stated fails: the line "1月19日上班" holds the phrase, and without
    the full stop the extraction yields nothing.  (Nor is every day of a run
    found: a bare day that does not follow "、" is passed over, a run that
    starts with a bare day raises, and so does a date that is not a day of
    the calendar.) *)
Lemma workday_phrase_needs_full_stop :
  extract_workdays (u "2020") [] (fix_line (u "1月19日上班")) = Ok []
  /\ parse_holiday_text
       (u "国务院办公厅关于2020年部分节假日安排的通知 1月19日上班")
     = Ok (u "2020", [])
  /\ extract_workdays (u "2020") [] (fix_line (u "1月19日20日上班。"))
     = Ok [(u "2020-01-19", u "2020-01-19", true)]
  /\ extract_workdays (u "2020") [] (fix_line (u "19日、20日上班。"))
     = Err ValueError
  /\ extract_workdays (u "2020") [] (fix_line (u "2月30日上班。"))
     = Err ValueError.
Proof. repeat split; vm_compute; reflexivity. Qed.

(** ** Instances *)

Lemma is_holiday_weekend_rule_witness :
  exists b,
    is_holiday (J := mem_json) (W := one_notice notice_2020)
      (ArgStr (u "2020-10-17")) (Some cache_overlap_2020)
    = (Ok b, Some cache_overlap_2020)
    /\ (b = true <-> weekday (DateTime 2020 10 17 0) = 5
                     \/ weekday (DateTime 2020 10 17 0) = 6)
    /\ (b = false <-> 0 <= weekday (DateTime 2020 10 17 0) <= 4).
Proof.
  apply (is_holiday_weekend_rule (J := mem_json) (W := one_notice notice_2020)
           cache_overlap_2020
           [(u "2020", PList (map py_of_interval_list overlap_2020))]
           (ArgStr (u "2020-10-17")) (DateTime 2020 10 17 0)
           (map py_of_interval_list overlap_2020) overlap_2020).
  - vm_compute. reflexivity.
  - reflexivity.
  - reflexivity.
  - reflexivity.
  - discriminate.
  - repeat constructor;
      (eexists; eexists; split; vm_compute; reflexivity).
  - repeat constructor;
      (intros (a & b & Ha & Hb & L1 & L2);
       vm_compute in Ha; vm_compute in Hb;
       inversion Ha; inversion Hb; subst;
       unfold day_le in L1, L2; cbn in L1, L2; lia).
Defined.
